(** * The chat relay of server.js, embedded and verified

    The server relays a chat message to one fixed webhook, hands the
    webhook's reply back to the browser (a whole JSON body, or a body that
    arrives in pieces and is cut into lines) and appends the exchange to
    chat_history.json.

    Layout of the development:
    - [JS]: the JavaScript values the handlers manipulate, with the
      language operations they go through (ToBoolean, [||], property
      reads);
    - [Text]: the string methods used (split, trim, includes) and the
      decoding of UTF-8;
    - [Engine]: the built-ins the server calls and does not define
      (JSON.parse, JSON.stringify, Number to String, MD5), as an interface;
    - [Server]: the functions of server.js, over that interface: the client
      address, the session identifier, the handler of POST /api/chat with
      its three branches, saveHistory, and the handlers of GET /api/session
      and POST /api/webcall;
    - [Reference]: an executable instance of the interface, used to run the
      handlers on concrete requests;
    - the notions the properties are stated with, the lemmas, and the
      properties themselves.

    Strings are sequences of bytes (UTF-8 text); a JavaScript number is a
    binary64 float. An evaluation that may throw returns a [completion].
    The handler is a function of the request and of the [world] (the clock
    and the webhook); its [outcome] lists what it sent to the caller (the
    strings passed to res.write, the payload passed to res.json), the calls
    made to the webhook and the calls made to saveHistory, which is a
    function of the history file as it finds it.

    The body of an upstream reply is null or is delivered to its end, chunk
    by chunk. Left out: what is printed on the console, an upstream body
    that breaks while it is read, the encoding of a written string on the
    wire (where a lone surrogate becomes U+FFFD), and the interleaving of
    concurrent requests. *)

From Stdlib Require Import ZArith NArith List String Ascii Bool Lia.
From Stdlib Require Import Floats DecimalString DecimalPos DecimalN.
Import ListNotations.

Set Warnings "-register-all".
Local Open Scope list_scope.
Local Open Scope string_scope.

(** ** Characters given by their codes *)

Definition DQUOTE : ascii := ascii_of_nat 34.
Definition LF : ascii := ascii_of_nat 10.
Definition dq : string := String DQUOTE EmptyString.
Definition nl : string := String LF EmptyString.
(** [quoted s] is [s] between double quotes. *)
Definition quoted (s : string) : string := dq ++ s ++ dq.

(** ** JavaScript values *)

Module JS.

(** What JSON.parse can return. An object keeps its properties in
    enumeration order, each key once. *)
Inductive value : Type :=
| JNull
| JBool (b : bool)
| JNum (n : float)
| JStr (s : string)
| JArr (items : list value)
| JObj (fields : list (string * value)).

(** Faults the engine itself raises (the message text is the engine's). *)
Inductive fault : Type :=
| ReadOfNull (property : string)      (* TypeError: x.p with x null *)
| NotAFunction (callee : string)      (* TypeError: x.f(...) with x.f no function *)
| NotAPrimitive                       (* TypeError: ToString of an object failed *)
| InvalidChunk (chunk : value)        (* TypeError: res.write of a non-string *)
| NotIterable (what : string)         (* TypeError: for await over null *)
| JsonSyntax (text : string).         (* SyntaxError: JSON.parse *)

(** What a [catch (error)] receives. *)
Inductive Error : Type :=
| Rejected (message : string)         (* raised by the environment: fetch failed *)
| Fault (f : fault).

(** The result of evaluating something that may throw. *)
Inductive completion (A : Type) : Type :=
| Normal (a : A)
| Throw (e : Error).
Arguments Normal {A} a.
Arguments Throw {A} e.

Definition bind {A B} (c : completion A) (k : A -> completion B) : completion B :=
  match c with
  | Normal a => k a
  | Throw e => Throw e
  end.

Fixpoint mapM {A B} (f : A -> completion B) (l : list A) : completion (list B) :=
  match l with
  | [] => Normal []
  | x :: r =>
      bind (f x) (fun y => bind (mapM f r) (fun ys => Normal (y :: ys)))
  end.

(** ToBoolean: false for null, false, +0, -0, NaN and the empty string. *)
Definition ToBoolean (v : value) : bool :=
  match v with
  | JNull => false
  | JBool b => b
  | JNum n => negb (PrimFloat.eqb n PrimFloat.zero || PrimFloat.is_nan n)
  | JStr s => negb (String.eqb s EmptyString)
  | JArr _ => true
  | JObj _ => true
  end.

(** A value that may be [undefined] is an [option value]. *)
Definition truthy (o : option value) : bool :=
  match o with
  | Some v => ToBoolean v
  | None => false
  end.

(** [a || b]. *)
Definition or (a b : option value) : option value :=
  if truthy a then a else b.

Fixpoint lookup (k : string) (fields : list (string * value)) : option value :=
  match fields with
  | [] => None
  | (k', v) :: r => if String.eqb k k' then Some v else lookup k r
  end.

(** [v.k], for the property names the server reads (message, response, text,
    output, type, content, sessionId): none of them is defined by a built-in
    prototype, so only an object's own fields answer. Reading a property of
    null throws. *)
Definition Get (v : value) (k : string) : completion (option value) :=
  match v with
  | JNull => Throw (Fault (ReadOfNull k))
  | JObj fields => Normal (lookup k fields)
  | _ => Normal None
  end.

(** [v === 'lit']. *)
Definition strict_eq_string (o : option value) (lit : string) : bool :=
  match o with
  | Some (JStr s) => String.eqb s lit
  | _ => false
  end.

End JS.
Export JS.

Notation "x <- c ;; k" := (bind c (fun x => k))
  (at level 61, c at next level, right associativity).

(** ** String methods *)

Module Text.

(** [s.split(sep)] for a one-character separator: never empty. *)
Fixpoint split (sep : ascii) (s : string) : list string :=
  match s with
  | EmptyString => [EmptyString]
  | String c r =>
      if Ascii.eqb c sep then EmptyString :: split sep r
      else match split sep r with
           | h :: t => String c h :: t
           | [] => [String c EmptyString]
           end
  end.

(** [hay.includes(needle)]. *)
Fixpoint includes (hay needle : string) : bool :=
  String.prefix needle hay ||
  match hay with
  | EmptyString => false
  | String _ r => includes r needle
  end.

Definition byte_is (c : ascii) (n : nat) : bool := Nat.eqb (nat_of_ascii c) n.

(** One-byte white space and line terminators: TAB, LF, VT, FF, CR, SP. *)
Definition ws1 (c : ascii) : bool :=
  let n := nat_of_ascii c in
  (Nat.leb 9 n && Nat.leb n 13) || Nat.eqb n 32.

(** U+00A0, as UTF-8. *)
Definition ws2 (a b : ascii) : bool := byte_is a 194 && byte_is b 160.

(** U+1680, U+2000..U+200A, U+2028, U+2029, U+202F, U+205F, U+3000 and
    U+FEFF, as UTF-8. *)
Definition ws3 (a b c : ascii) : bool :=
  let z := nat_of_ascii c in
  (byte_is a 225 && byte_is b 154 && byte_is c 128)
  || (byte_is a 226 && byte_is b 128
      && ((Nat.leb 128 z && Nat.leb z 138) || Nat.eqb z 168 || Nat.eqb z 169
          || Nat.eqb z 175))
  || (byte_is a 226 && byte_is b 129 && byte_is c 159)
  || (byte_is a 227 && byte_is b 128 && byte_is c 128)
  || (byte_is a 239 && byte_is b 187 && byte_is c 191).

Fixpoint trimStart (s : string) : string :=
  match s with
  | String a r1 =>
      if ws1 a then trimStart r1
      else match r1 with
           | String b r2 =>
               if ws2 a b then trimStart r2
               else match r2 with
                    | String c r3 => if ws3 a b c then trimStart r3 else s
                    | EmptyString => s
                    end
           | EmptyString => s
           end
  | EmptyString => s
  end.

Fixpoint rev_onto (s acc : string) : string :=
  match s with
  | EmptyString => acc
  | String c r => rev_onto r (String c acc)
  end.
Definition rev (s : string) : string := rev_onto s EmptyString.

(** [trimStart] on the reversed text: the multi-byte forms are met last byte
    first. *)
Fixpoint trimStart_rev (s : string) : string :=
  match s with
  | String a r1 =>
      if ws1 a then trimStart_rev r1
      else match r1 with
           | String b r2 =>
               if ws2 b a then trimStart_rev r2
               else match r2 with
                    | String c r3 => if ws3 c b a then trimStart_rev r3 else s
                    | EmptyString => s
                    end
           | EmptyString => s
           end
  | EmptyString => s
  end.

(** [s.trim()]. *)
Definition trim (s : string) : string := rev (trimStart_rev (rev (trimStart s))).

Definition nonempty (s : string) : bool := negb (String.eqb s EmptyString).

(** U+FFFD, as UTF-8. *)
Definition REPLACEMENT : string :=
  String (ascii_of_nat 239) (String (ascii_of_nat 191) (String (ascii_of_nat 189) EmptyString)).

(** A byte met when no sequence is open: what is put out at once, the bytes
    held back, how many more are needed, and the range of the next one. *)
Definition lead (c : ascii) : string * string * nat * nat * nat :=
  let b := nat_of_ascii c in
  let one := String c EmptyString in
  if Nat.leb b 127 then (one, EmptyString, 0, 128, 191)
  else if Nat.leb 194 b && Nat.leb b 223 then (EmptyString, one, 1, 128, 191)
  else if Nat.eqb b 224 then (EmptyString, one, 2, 160, 191)
  else if Nat.eqb b 237 then (EmptyString, one, 2, 128, 159)
  else if Nat.leb 225 b && Nat.leb b 239 then (EmptyString, one, 2, 128, 191)
  else if Nat.eqb b 240 then (EmptyString, one, 3, 144, 191)
  else if Nat.eqb b 244 then (EmptyString, one, 3, 128, 143)
  else if Nat.leb 241 b && Nat.leb b 243 then (EmptyString, one, 3, 128, 191)
  else (REPLACEMENT, EmptyString, 0, 128, 191).

(** UTF-8 decoding with replacement: a well-formed sequence is kept, each
    ill-formed or cut-off one becomes U+FFFD. *)
Fixpoint decode (s pending : string) (needed lower upper : nat) : string :=
  match s with
  | EmptyString => if Nat.eqb needed 0 then EmptyString else REPLACEMENT
  | String c r =>
      let b := nat_of_ascii c in
      if negb (Nat.eqb needed 0) && Nat.leb lower b && Nat.leb b upper then
        if Nat.eqb needed 1
        then pending ++ String c (decode r EmptyString 0 128 191)
        else decode r (pending ++ String c EmptyString) (needed - 1) 128 191
      else
        let '(out, held, n, lo, hi) := lead c in
        (if Nat.eqb needed 0 then EmptyString else REPLACEMENT)
        ++ out ++ decode r held n lo hi
  end.

(** [Buffer.from(chunk).toString('utf8')]. *)
Definition utf8 (bytes : string) : string := decode bytes EmptyString 0 128 191.

(** The byte order mark, which Response.text() and .json() drop. *)
Definition strip_bom (s : string) : string :=
  match s with
  | String a (String b (String c r)) =>
      if byte_is a 239 && byte_is b 187 && byte_is c 191 then r else s
  | _ => s
  end.

(** A non-negative integer in decimal, as Number to String prints it. *)
Definition decimal (n : N) : string := NilZero.string_of_uint (N.to_uint n).

End Text.

(** ** The built-ins the server relies on *)

(** server.js calls these and does not define them. The handlers are
    embedded over any implementation of them; [Reference] gives one. *)
Class Engine : Type := {
  (** JSON.parse(text); [None] when it throws a SyntaxError. *)
  JSON_parse : string -> option value;
  (** JSON.stringify(v). *)
  JSON_stringify : value -> string;
  (** JSON.stringify(v, null, 2). *)
  JSON_stringify_2 : value -> string;
  (** Number::toString(n), radix 10. *)
  Number_toString : float -> string;
  (** crypto.createHash('md5').update(s).digest('hex'). *)
  md5_hex : string -> string;
  (** The message of an engine-raised error. *)
  fault_message : fault -> string
}.

(** ** server.js *)

Section Server.

Context {E : Engine}.

(** [error.message]. *)
Definition message_of (e : Error) : string :=
  match e with
  | Rejected m => m
  | Fault f => fault_message f
  end.

Definition parse (text : string) : completion value :=
  match JSON_parse text with
  | Some v => Normal v
  | None => Throw (Fault (JsonSyntax text))
  end.

Section Join.
Variable element_string : value -> completion string.
Variable sep : string.

(** Array.prototype.join over the strings of the elements: null (and
    undefined) count as the empty string. *)
Fixpoint join_with (items : list value) : completion string :=
  match items with
  | [] => Normal EmptyString
  | x :: r =>
      s <- match x with
           | JNull => Normal EmptyString
           | _ => element_string x
           end ;;
      match r with
      | [] => Normal s
      | _ :: _ => t <- join_with r ;; Normal (s ++ sep ++ t)
      end
  end.
End Join.

(** ToString. An array prints as its elements joined by commas; a plain
    object prints through Object.prototype.toString, unless an own
    (non-callable) toString field hides it. *)
Fixpoint ToString (v : value) : completion string :=
  match v with
  | JNull => Normal "null"
  | JBool true => Normal "true"
  | JBool false => Normal "false"
  | JNum n => Normal (Number_toString n)
  | JStr s => Normal s
  | JArr items => join_with ToString "," items
  | JObj fields =>
      match lookup "toString" fields with
      | None => Normal "[object Object]"
      | Some _ => Throw (Fault NotAPrimitive)
      end
  end.

(** [items.join(sep)]. *)
Definition join (sep : string) (items : list value) : completion string :=
  join_with ToString sep items.

(** *** Constants *)

Definition WEBHOOK_URL : string :=
  "https://n8n.smallgrp.com/webhook/af2cb6fe-6c94-45b2-af8e-5214cb72d7c8".

(** *** The request and the client address *)

Record request : Type := {
  body : value;                        (* req.body, as express.json() left it;
                                          JNull when there is none *)
  x_forwarded_for : option string;     (* req.headers['x-forwarded-for'] *)
  x_real_ip : option string;           (* req.headers['x-real-ip'] *)
  remoteAddress : option string;       (* req.socket?.remoteAddress *)
  ip : option string                   (* req.ip *)
}.

(** [a || b] on strings that may be undefined. *)
Definition or_string (a b : option string) : option string :=
  match a with
  | Some s => if Text.nonempty s then a else b
  | None => b
  end.

Definition getClientIP (req : request) : string :=
  let first :=
    match x_forwarded_for req with
    | Some h => Some (Text.trim (hd EmptyString (Text.split "," h)))
    | None => None
    end in
  match or_string (or_string (or_string first (x_real_ip req))
                             (remoteAddress req)) (ip req) with
  | Some s => if Text.nonempty s then s else "unknown"
  | None => "unknown"
  end.

(** [createSessionId(ip)]; the two readings of Date.now() are [t1], [t2]. *)
Definition createSessionId (ip : string) (t1 t2 : N) : string :=
  let hash := String.substring 0 8 (md5_hex (ip ++ Text.decimal t1)) in
  "sg_" ++ hash ++ "_" ++ Text.decimal t2.

(** *** The history log *)

(** chat_history.json as saveHistory meets it. *)
Record disk : Type := {
  stored : option string;     (* what fs.readFile yields; None when it fails *)
  accepts_write : bool        (* whether fs.writeFile succeeds *)
}.

Record entry : Type := {
  userMessage : string;
  botResponse : string;
  timestamp : string;
  sessionId : value
}.

(** The object pushed onto the history. *)
Definition record_of (x : entry) (savedAt : string) : value :=
  JObj [("timestamp", JStr (timestamp x));
        ("sessionId", sessionId x);
        ("userMessage", JStr (userMessage x));
        ("botResponse", JStr (botResponse x));
        ("savedAt", JStr savedAt)].

(** [history.push(x)]: only an array has a push. *)
Definition push (history x : value) : completion value :=
  match history with
  | JArr items => Normal (JArr (items ++ [x])%list)
  | JNull => Throw (Fault (ReadOfNull "push"))
  | _ => Throw (Fault (NotAFunction "history.push"))
  end.

Inductive save_outcome : Type :=
| Saved (content : string)          (* written: the file now holds [content] *)
| WriteFailed (content : string)    (* fs.writeFile reported an error *)
| Crashed (e : Error).              (* thrown inside the readFile callback *)

(** [saveHistory(userMessage, botResponse, timestamp, sessionId)]; [savedAt]
    is the reading of the clock inside the callback. *)
Definition saveHistory (d : disk) (savedAt : string) (x : entry) : save_outcome :=
  let history :=
    match stored d with
    | Some data =>
        if Text.nonempty data then
          match parse data with
          | Normal v => v
          | Throw _ => JArr []
          end
        else JArr []
    | None => JArr []
    end in
  match push history (record_of x savedAt) with
  | Throw e => Crashed e
  | Normal h =>
      let content := JSON_stringify_2 h in
      if accepts_write d then Saved content else WriteFailed content
  end.

(** *** The upstream call *)

Record fetch_call : Type := {
  url : string;
  method : string;
  call_headers : list (string * string);
  call_body : string
}.

Record upstream : Type := {
  status : N;
  statusText : string;
  content_type : option string;   (* response.headers.get('content-type') *)
  stream : option (list string)   (* response.body: None when it is null (a
                                     204 or 205 reply), else its chunks *)
}.

(** [response.ok]: a status from 200 to 299. *)
Definition ok (r : upstream) : bool :=
  (N.leb 200 (status r) && N.leb (status r) 299)%bool.

(** What [response.text()] and [response.json()] read: nothing when the
    body is null. *)
Definition delivered (r : upstream) : list string :=
  match stream r with
  | Some chunks => chunks
  | None => []
  end.

(** [response.json()]. *)
Definition json (r : upstream) : completion value :=
  parse (Text.strip_bom (Text.utf8 (String.concat EmptyString (delivered r)))).

(** What the handler is run in: the clock and the webhook. *)
Record world : Type := {
  startTime : string;             (* new Date().toISOString() on entry *)
  now1 : N;                       (* Date.now(), first reading *)
  now2 : N;                       (* Date.now(), second reading *)
  fetch : fetch_call -> completion upstream
}.

(** *** The JSON branch *)

(** [o || k], where [k] is evaluated only when [o] is falsy. *)
Definition pick (o : option value) (k : completion value) : completion value :=
  match o with
  | Some v => if ToBoolean v then Normal v else k
  | None => k
  end.

(** The callback of [data.map]. *)
Definition reduce (item : value) : completion value :=
  match item with
  | JStr _ => Normal item
  | _ =>
      m <- Get item "message" ;;
      pick m (r <- Get item "response" ;;
      pick r (t <- Get item "text" ;;
      pick t (Normal (JStr (JSON_stringify item)))))
  end.

(** The value of [botResponse] after the if-chain. *)
Definition extract (data : value) : completion value :=
  match data with
  | JStr _ => Normal data
  | _ =>
      m <- Get data "message" ;;
      pick m (r <- Get data "response" ;;
      pick r (t <- Get data "text" ;;
      pick t (o <- Get data "output" ;;
      pick o
        match data with
        | JArr ((_ :: _) as items) =>
            mapped <- mapM reduce items ;;
            joined <- join (nl ++ nl) mapped ;;
            Normal (JStr joined)
        | _ => Normal (JStr (JSON_stringify data))
        end)))
  end.

(** *** The streaming branch *)

(** What has reached the caller ([res.write]) and the accumulator. *)
Record sink : Type := {
  written : list string;
  fullResponse : string
}.

Definition start : sink := {| written := []; fullResponse := EmptyString |}.

(** [res.write(c); fullResponse += c]. res.write throws on anything but a
    string, before it writes. *)
Definition emit (c : value) (k : sink) : completion sink :=
  match c with
  | JStr s =>
      Normal {| written := (written k ++ [s])%list;
                fullResponse := fullResponse k ++ s |}
  | _ => Throw (Fault (InvalidChunk c))
  end.

Definition emit_if (o : option value) (k : sink) (otherwise : completion sink)
  : completion sink :=
  match o with
  | Some v => if ToBoolean v then emit v k else otherwise
  | None => otherwise
  end.

(** The body of the [try] for one parsed line. *)
Definition forward (parsed : value) (k : sink) : completion sink :=
  ty <- Get parsed "type" ;;
  c <- (if strict_eq_string ty "item" then Get parsed "content" else Normal None) ;;
  emit_if c k
    (m <- Get parsed "message" ;;
     t <- Get parsed "text" ;;
     r <- Get parsed "response" ;;
     emit_if (or (or m t) r) k (Normal k)).

(** One line, with its [try]/[catch]; the [catch] writes the line as it is. *)
Definition processLine (k : sink) (line : string) : sink :=
  if Text.nonempty (Text.trim line) then
    match (parsed <- parse line ;; forward parsed k) with
    | Normal k' => k'
    | Throw _ =>
        {| written := (written k ++ [line])%list;
           fullResponse := fullResponse k ++ line |}
    end
  else k.

(** One turn of [for await (const chunk of response.body)]: the state is the
    sink and [buffer]. *)
Definition onChunk (st : sink * string) (chunk : string) : sink * string :=
  let buffer := snd st ++ Text.utf8 chunk in
  let lines := Text.split LF buffer in
  (fold_left processLine (removelast lines) (fst st), last lines EmptyString).

(** The loop, then the remaining buffer. *)
Definition relay (chunks : list string) : sink :=
  let st := fold_left onChunk chunks (start, EmptyString) in
  processLine (fst st) (snd st).

(** *** POST /api/chat *)

Inductive sent : Type :=
| SentJson (code : N) (payload : value)     (* res.status(code).json(payload) *)
| SentText (headers : list (string * string)) (writes : list string).
                      (* setHeader ..., then write of each string, then end *)

Record outcome : Type := {
  response : option sent;        (* None: nothing was sent *)
  uncaught : option Error;       (* thrown out of the handler *)
  fetched : list fetch_call;     (* the calls to the webhook *)
  logged : list entry            (* the calls to saveHistory *)
}.

Definition text_plain : list (string * string) :=
  [("Content-Type", "text/plain; charset=utf-8")].

Definition crash (e : Error) : outcome :=
  {| response := None; uncaught := Some e; fetched := []; logged := [] |}.

(** The [catch (error)] of the handler. *)
Definition internal_error (e : Error) (calls : list fetch_call) : outcome :=
  {| response := Some (SentJson 500
        (JObj [("error", JStr "Internal Server Error");
               ("details", JStr (message_of e))]));
     uncaught := None; fetched := calls; logged := [] |}.

Definition is_json (contentType : option string) : bool :=
  match contentType with
  | Some t => Text.nonempty t && Text.includes t "application/json"
  | None => false
  end.

(** [sessionId || createSessionId(clientIP)]. *)
Definition uniqueId (w : world) (req : request) (sessionId : option value) : value :=
  match sessionId with
  | Some v =>
      if ToBoolean v then v
      else JStr (createSessionId (getClientIP req) (now1 w) (now2 w))
  | None => JStr (createSessionId (getClientIP req) (now1 w) (now2 w))
  end.

(** The one call to the webhook. *)
Definition call_for (w : world) (msg : string) (id : value) : fetch_call :=
  {| url := WEBHOOK_URL; method := "POST";
     call_headers := [("Content-Type", "application/json")];
     call_body := JSON_stringify
       (JObj [("message", JStr msg);
              ("sessionId", id);
              ("timestamp", JStr (startTime w))]) |}.

(** The arguments of a call to saveHistory. *)
Definition log_for (w : world) (msg : string) (id : value) (b : string) : entry :=
  {| userMessage := msg; botResponse := b;
     timestamp := startTime w; sessionId := id |}.

(** What follows [await fetch(...)] inside the [try], once the webhook has
    answered [r]: the error status, the JSON body, or the stream. A null
    body cannot be iterated: [for await] throws, after the two setHeader and
    before any write, and the [catch] answers. *)
Definition answer (w : world) (msg : string) (id : value) (r : upstream) : outcome :=
  let call := call_for w msg id in
  if negb (ok r) then
    {| response := Some (SentText text_plain
          ["Sorry, the webhook returned an error ("
           ++ Text.decimal (status r)
           ++ "). Please try again later."]);
       uncaught := None; fetched := [call];
       logged := [log_for w msg id ("Error: " ++ Text.decimal (status r))] |}
  else if is_json (content_type r) then
    match (data <- json r ;; extract data) with
    | Throw e => internal_error e [call]
    | Normal (JStr botResponse) =>
        {| response := Some (SentText text_plain [botResponse]);
           uncaught := None; fetched := [call];
           logged := [log_for w msg id botResponse] |}
    | Normal b => internal_error (Fault (InvalidChunk b)) [call]
    end
  else
    match stream r with
    | None => internal_error (Fault (NotIterable "response.body")) [call]
    | Some chunks =>
        let k := relay chunks in
        {| response := Some (SentText
              (text_plain ++ [("Transfer-Encoding", "chunked")])%list
              (written k));
           uncaught := None; fetched := [call];
           logged := [log_for w msg id (fullResponse k)] |}
    end.

(** The [try] and its [catch]. *)
Definition attempt (w : world) (msg : string) (id : value) : outcome :=
  match fetch w (call_for w msg id) with
  | Throw e => internal_error e [call_for w msg id]
  | Normal r => answer w msg id r
  end.

(** The handler. A truthy [message] that is no string has no [substring]:
    the TypeError is thrown before the [try]. *)
Definition chat (w : world) (req : request) : outcome :=
  match (m <- Get (body req) "message" ;;
         s <- Get (body req) "sessionId" ;; Normal (m, s)) with
  | Throw e => crash e
  | Normal (message, sessionId) =>
      if negb (truthy message) then
        {| response := Some (SentJson 400
              (JObj [("error", JStr "Message is required")]));
           uncaught := None; fetched := []; logged := [] |}
      else
        match message with
        | Some (JStr msg) => attempt w msg (uniqueId w req sessionId)
        | _ => crash (Fault (NotAFunction "message.substring"))
        end
  end.

(** *** GET /api/session *)

(** The handler; [startTime w] is its reading of new Date().toISOString(). *)
Definition session (w : world) (req : request) : outcome :=
  let clientIP := getClientIP req in
  let sessionId := createSessionId clientIP (now1 w) (now2 w) in
  {| response := Some (SentJson 200
        (JObj [("sessionId", JStr sessionId);
               ("ip", JStr clientIP);
               ("timestamp", JStr (startTime w))]));
     uncaught := None; fetched := []; logged := [] |}.

(** *** POST /api/webcall *)

(** [response.text()]. *)
Definition text (r : upstream) : string :=
  Text.strip_bom (Text.utf8 (String.concat EmptyString (delivered r))).





End Server.

(** ** A reference engine *)

(** An executable instance of [Engine]: JSON as ECMA-404 and the
    ECMAScript specification define it, Number to String by the shortest
    digits that read back, MD5 as RFC 1321. The message texts follow V8 and
    Node, without the position of a syntax error. *)
Module Reference.

(** *** Numbers: decimal text and binary64 *)

Module Numbers.
Local Open Scope Z_scope.

(** The binary64 nearest to [p / q] (ties to even), for [p, q > 0]. *)
Definition nearest (negative : bool) (p q : Z) : spec_float :=
  let s := Z.max 0 (66 + Z.log2 q - Z.log2 p) in
  let scaled := p * 2 ^ s in
  let sticky := if Z.eqb (scaled mod q) 0 then 0 else 1 in
  match 2 * (scaled / q) + sticky with
  | Zpos m => binary_round prec emax negative m (- s - 1)
  | _ => S754_zero negative
  end.

(** Number of decimal digits of [n] ([0] for [0]). *)
Definition digits10 (n : Z) : Z :=
  if n <=? 0 then 0 else Z.of_nat (String.length (NilZero.string_of_uint (N.to_uint (Z.to_N n)))).

(** The Number value of [m * 10 ^ e], for [m >= 0]. *)
Definition of_decimal (negative : bool) (m e : Z) : float :=
  SF2Prim
    (if m =? 0 then S754_zero negative
     else if 310 <? digits10 m + e then S754_infinity negative
     else if digits10 m + e <? -330 then S754_zero negative
     else if 0 <=? e then nearest negative (m * 10 ^ e) 1
     else nearest negative m (10 ^ (- e))).

(** [x * 10 ^ k] as a fraction, for [x = m * 2 ^ e]. *)
Definition scaled (m e k : Z) : Z * Z :=
  let '(p, q) := if 0 <=? e then (m * 2 ^ e, 1) else (m, 2 ^ (- e)) in
  if 0 <=? k then (p * 10 ^ k, q) else (p, q * 10 ^ (- k)).

(** The [n] with [10 ^ (n - 1) <= m * 2 ^ e < 10 ^ n]. *)
Fixpoint settle (fuel : nat) (m e n : Z) : Z :=
  match fuel with
  | O => n
  | S fuel' =>
      let '(p, q) := scaled m e (- n) in
      if p <? q then n else settle fuel' m e (n + 1)
  end.

Definition magnitude (m e : Z) : Z :=
  (* [2 ^ l <= x] with [l = log2 m + e]; [l * log10 2], rounded down, is at
     most [n], and at least [n - 2] *)
  settle 4 m e (((Z.log2 m + e) * 30103) / 100000).

(** The digits [s] and the exponent [n] of Number::toString for a positive
    finite [x = m * 2 ^ e]: the shortest [s] with [s * 10 ^ (n - k)]
    reading back as [x], the closest to [x] among those. *)
Fixpoint shortest (fuel : nat) (k : Z) (x : float) (m e n : Z) : Z * Z :=
  let '(p, q) := scaled m e (k - n) in
  let lo := p / q in
  let hi := lo + 1 in
  let back s := PrimFloat.eqb (of_decimal false s (n - k)) x in
  let lo_near := (* is lo at least as close as hi? lo on a tie only when even *)
    let twice := 2 * (p mod q) in
    (twice <? q) || ((twice =? q) && Z.even lo) in
  let take s := if s =? 10 ^ k then (10 ^ (k - 1), n + 1) else (s, n) in
  match fuel with
  | O => take lo
  | S fuel' =>
      if back lo && back hi then (if lo_near then take lo else take hi)
      else if back lo then take lo
      else if back hi then take hi
      else shortest fuel' (k + 1) x m e n
  end.

Definition digits (s : Z) : string := NilZero.string_of_uint (N.to_uint (Z.to_N s)).

Fixpoint zeros (n : nat) : string :=
  match n with O => EmptyString | S n' => String "0" (zeros n') end.

(** Drop the trailing zeros of the digit string (keeping one digit). *)
Fixpoint drop_trailing (s : string) : string :=
  match s with
  | EmptyString => EmptyString
  | String c r =>
      match drop_trailing r with
      | EmptyString => if Ascii.eqb c "0" then EmptyString else String c EmptyString
      | r' => String c r'
      end
  end.

Definition layout (s n : Z) : string :=
  let ds := match drop_trailing (digits s) with EmptyString => "0" | d => d end in
  let k := Z.of_nat (String.length ds) in
  if (k <=? n) && (n <=? 21) then ds ++ zeros (Z.to_nat (n - k))
  else if (0 <? n) && (n <=? 21) then
    String.substring 0 (Z.to_nat n) ds ++ "."
    ++ String.substring (Z.to_nat n) (Z.to_nat (k - n)) ds
  else if (-6 <? n) && (n <=? 0) then "0." ++ zeros (Z.to_nat (- n)) ++ ds
  else
    let ex := n - 1 in
    let tail := (if 0 <=? ex then "e+" else "e-") ++ digits (Z.abs ex) in
    if k =? 1 then ds ++ tail
    else String.substring 0 1 ds ++ "." ++ String.substring 1 (Z.to_nat (k - 1)) ds ++ tail.

(** Number::toString(x), radix 10. *)
Definition to_string (x : float) : string :=
  match Prim2SF x with
  | S754_nan => "NaN"
  | S754_zero _ => "0"
  | S754_infinity false => "Infinity"
  | S754_infinity true => "-Infinity"
  | S754_finite negative m e =>
      let ax := PrimFloat.abs x in
      let n := magnitude (Zpos m) e in
      let '(s, n') := shortest 17 1 ax (Zpos m) e n in
      (if negative then "-" else EmptyString) ++ layout s n'
  end.

Definition is_finite (x : float) : bool :=
  match Prim2SF x with
  | S754_nan | S754_infinity _ => false
  | _ => true
  end.

End Numbers.

(** *** MD5 *)

Module MD5.
Local Open Scope N_scope.

Definition mask : N := 4294967295.
Definition add32 (a b : N) : N := N.land (a + b) mask.
Definition not32 (a : N) : N := N.lxor a mask.
Definition rotl (x : N) (c : N) : N :=
  N.land (N.lor (N.shiftl x c) (N.shiftr x (32 - c))) mask.

(** floor(2^32 * |sin(i + 1)|), i = 0..63. *)
Definition K : list N :=
  [3614090360; 3905402710; 606105819; 3250441966; 4118548399; 1200080426;
   2821735955; 4249261313; 1770035416; 2336552879; 4294925233; 2304563134;
   1804603682; 4254626195; 2792965006; 1236535329; 4129170786; 3225465664;
   643717713; 3921069994; 3593408605; 38016083; 3634488961; 3889429448;
   568446438; 3275163606; 4107603335; 1163531501; 2850285829; 4243563512;
   1735328473; 2368359562; 4294588738; 2272392833; 1839030562; 4259657740;
   2763975236; 1272893353; 4139469664; 3200236656; 681279174; 3936430074;
   3572445317; 76029189; 3654602809; 3873151461; 530742520; 3299628645;
   4096336452; 1126891415; 2878612391; 4237533241; 1700485571; 2399980690;
   4293915773; 2240044497; 1873313359; 4264355552; 2734768916; 1309151649;
   4149444226; 3174756917; 718787259; 3951481745].

(** The rotation of round [i]. *)
Definition shift (i : N) : N :=
  let r := i mod 4 in
  nth (N.to_nat r)
    (if i <? 16 then [7; 12; 17; 22]
     else if i <? 32 then [5; 9; 14; 20]
     else if i <? 48 then [4; 11; 16; 23]
     else [6; 10; 15; 21]) 0.

Definition round (M : list N) (st : N * N * N * N) (i : N) : N * N * N * N :=
  let '(A, B, C, D) := st in
  let '(F, g) :=
    if i <? 16 then (N.lor (N.land B C) (N.land (not32 B) D), i)
    else if i <? 32 then
      (N.lor (N.land D B) (N.land (not32 D) C), (5 * i + 1) mod 16)
    else if i <? 48 then (N.lxor (N.lxor B C) D, (3 * i + 5) mod 16)
    else (N.lxor C (N.lor B (not32 D)), (7 * i) mod 16) in
  let F' := add32 (add32 (add32 F A) (nth (N.to_nat i) K 0))
                  (nth (N.to_nat g) M 0) in
  (D, add32 B (rotl F' (shift i)), B, C).

Definition rounds : list N := map N.of_nat (seq 0 64).

(** Little-endian 32-bit words of a block of bytes. *)
Fixpoint words (bytes : list N) : list N :=
  match bytes with
  | a :: b :: c :: d :: r =>
      (a + 256 * b + 65536 * c + 16777216 * d) :: words r
  | _ => []
  end.

Definition block (h : N * N * N * N) (M : list N) : N * N * N * N :=
  let '(a0, b0, c0, d0) := h in
  let '(A, B, C, D) := fold_left (round M) rounds h in
  (add32 a0 A, add32 b0 B, add32 c0 C, add32 d0 D).

Fixpoint blocks (fuel : nat) (h : N * N * N * N) (ws : list N) : N * N * N * N :=
  match fuel, ws with
  | S fuel', _ :: _ => blocks fuel' (block h (firstn 16 ws)) (skipn 16 ws)
  | _, _ => h
  end.

Definition le_bytes (count : nat) (x : N) : list N :=
  map (fun i => N.land (N.shiftr x (8 * N.of_nat i)) 255) (seq 0 count).

(** The message, the byte 0x80, zeros up to 56 modulo 64, the bit length. *)
Definition pad (bytes : list N) : list N :=
  let len := N.of_nat (List.length bytes) in
  let fill := N.to_nat ((119 - len mod 64) mod 64) in
  bytes ++ [128] ++ repeat 0 fill ++ le_bytes 8 (8 * len).

Definition hex_digit (n : N) : ascii :=
  ascii_of_N (if n <? 10 then 48 + n else 87 + n).

Fixpoint hex (bytes : list N) : string :=
  match bytes with
  | [] => EmptyString
  | b :: r => String (hex_digit (b / 16)) (String (hex_digit (b mod 16)) (hex r))
  end.

Definition bytes_of (s : string) : list N :=
  map N_of_ascii (list_ascii_of_string s).

Definition md5_hex (s : string) : string :=
  let ws := words (pad (bytes_of s)) in
  let '(a, b, c, d) :=
    blocks (List.length ws)
      (1732584193, 4023233417, 2562383102, 271733878) ws in
  hex (le_bytes 4 a ++ le_bytes 4 b ++ le_bytes 4 c ++ le_bytes 4 d).

End MD5.

(** *** JSON text *)

Module Json.

Definition is_ws (c : ascii) : bool :=
  let n := nat_of_ascii c in
  Nat.eqb n 32 || Nat.eqb n 9 || Nat.eqb n 10 || Nat.eqb n 13.

Fixpoint skip (s : string) : string :=
  match s with
  | String c r => if is_ws c then skip r else s
  | EmptyString => s
  end.

Definition is_digit (c : ascii) : bool :=
  let n := nat_of_ascii c in Nat.leb 48 n && Nat.leb n 57.

Definition hex_value (c : ascii) : option N :=
  let n := N_of_ascii c in
  (if (48 <=? n) && (n <=? 57) then Some (n - 48)
   else if (97 <=? n) && (n <=? 102) then Some (n - 87)
   else if (65 <=? n) && (n <=? 70) then Some (n - 55)
   else None)%N.

(** A character of a string literal: a byte of the text, or the code unit
    of a \u escape. *)
Inductive piece : Type :=
| Raw (c : ascii)
| Unit (u : N).

Definition simple_escape (c : ascii) : option ascii :=
  let n := nat_of_ascii c in
  if Nat.eqb n 34 then Some c                      (* quote *)
  else if Nat.eqb n 92 then Some c                 (* backslash *)
  else if Nat.eqb n 47 then Some c                 (* slash *)
  else if Nat.eqb n 98 then Some (ascii_of_nat 8)  (* b *)
  else if Nat.eqb n 102 then Some (ascii_of_nat 12) (* f *)
  else if Nat.eqb n 110 then Some (ascii_of_nat 10) (* n *)
  else if Nat.eqb n 114 then Some (ascii_of_nat 13) (* r *)
  else if Nat.eqb n 116 then Some (ascii_of_nat 9)  (* t *)
  else None.

(** The characters of a string literal, after its opening quote. *)
Fixpoint string_body (s : string) : option (list piece * string) :=
  match s with
  | EmptyString => None
  | String c r =>
      if Nat.eqb (nat_of_ascii c) 34 then Some ([], r)
      else if Nat.eqb (nat_of_ascii c) 92 then
        match r with
        | String e r1 =>
            if Nat.eqb (nat_of_ascii e) 117 then
              match r1 with
              | String h1 (String h2 (String h3 (String h4 r2))) =>
                  match hex_value h1, hex_value h2, hex_value h3, hex_value h4,
                        string_body r2 with
                  | Some a, Some b, Some c', Some d, Some (ps, rest) =>
                      Some (Unit (4096 * a + 256 * b + 16 * c' + d) :: ps, rest)
                  | _, _, _, _, _ => None
                  end
              | _ => None
              end
            else
              match simple_escape e, string_body r1 with
              | Some x, Some (ps, rest) => Some (Raw x :: ps, rest)
              | _, _ => None
              end
        | EmptyString => None
        end
      else if Nat.ltb (nat_of_ascii c) 32 then None
      else
        match string_body r with
        | Some (ps, rest) => Some (Raw c :: ps, rest)
        | None => None
        end
  end.

Definition byte (n : N) : string := String (ascii_of_N n) EmptyString.

(** UTF-8 of a code point (a lone surrogate is written the same way). *)
Definition utf8_of (n : N) : string :=
  (if n <? 128 then byte n
   else if n <? 2048 then byte (192 + n / 64) ++ byte (128 + n mod 64)
   else if n <? 65536 then
     byte (224 + n / 4096) ++ byte (128 + (n / 64) mod 64) ++ byte (128 + n mod 64)
   else
     byte (240 + n / 262144) ++ byte (128 + (n / 4096) mod 64)
     ++ byte (128 + (n / 64) mod 64) ++ byte (128 + n mod 64))%N.

Definition is_high (u : N) : bool := ((55296 <=? u) && (u <=? 56319))%N.
Definition is_low (u : N) : bool := ((56320 <=? u) && (u <=? 57343))%N.

(** The bytes of a string literal: a surrogate pair of escapes is one
    character. *)
Fixpoint encode (ps : list piece) : string :=
  match ps with
  | [] => EmptyString
  | Raw c :: r => String c (encode r)
  | Unit u :: r =>
      match r with
      | Unit l :: r' =>
          if is_high u && is_low l
          then utf8_of (65536 + (u - 55296) * 1024 + (l - 56320))%N ++ encode r'
          else utf8_of u ++ encode r
      | _ => utf8_of u ++ encode r
      end
  end.

(** A run of digits: its value after [acc], its length, the rest. *)
Fixpoint digit_run (s : string) (acc : Z) (count : Z) : Z * Z * string :=
  match s with
  | String c r =>
      if is_digit c
      then digit_run r (10 * acc + Z.of_nat (nat_of_ascii c) - 48)%Z (count + 1)%Z
      else (acc, count, s)
  | EmptyString => (acc, count, s)
  end.

Definition starts (c : ascii) (s : string) : option string :=
  match s with
  | String c' r => if Ascii.eqb c c' then Some r else None
  | EmptyString => None
  end.

(** A number literal: an optional minus; a zero, or digits that do not
    start with a zero; an optional point with digits; an optional e or E
    with an optional sign and digits. *)
Definition number (s : string) : option (float * string) :=
  let '(negative, s1) :=
    match starts "-" s with Some r => (true, r) | None => (false, s) end in
  let whole :=
    match starts "0" s1 with
    | Some r => Some (0%Z, r)
    | None =>
        let '(v, count, r) := digit_run s1 0%Z 0%Z in
        if (count =? 0)%Z then None else Some (v, r)
    end in
  match whole with
  | None => None
  | Some (w, s2) =>
      let fraction :=
        match starts "." s2 with
        | Some r =>
            let '(v, count, r') := digit_run r w 0%Z in
            if (count =? 0)%Z then None else Some (v, count, r')
        | None => Some (w, 0%Z, s2)
        end in
      match fraction with
      | None => None
      | Some (m, scale, s3) =>
          let after_e :=
            match starts "e" s3, starts "E" s3 with
            | Some r, _ => Some r
            | None, Some r => Some r
            | None, None => None
            end in
          match after_e with
          | None => Some (Numbers.of_decimal negative m (- scale), s3)
          | Some s4 =>
              let '(minus, s5) :=
                match starts "-" s4, starts "+" s4 with
                | Some r, _ => (true, r)
                | None, Some r => (false, r)
                | None, None => (false, s4)
                end in
              let '(ex, count, s6) := digit_run s5 0%Z 0%Z in
              if (count =? 0)%Z then None
              else Some (Numbers.of_decimal negative m
                           ((if minus then - ex else ex) - scale)%Z, s6)
          end
      end
  end.

(** An array index as a property key: a decimal below 2^32 - 1 with no
    leading zero. *)
Definition index_of (k : string) : option N :=
  match k with
  | EmptyString => None
  | String c r =>
      let '(v, count, rest) := digit_run k 0%Z 0%Z in
      if String.eqb rest EmptyString
         && negb (Ascii.eqb c "0" && negb (String.eqb r EmptyString))
         && (v <? 4294967295)%Z
      then Some (Z.to_N v) else None
  end.

Fixpoint replace (k : string) (v : value) (fields : list (string * value))
  : option (list (string * value)) :=
  match fields with
  | [] => None
  | (k', v') :: r =>
      if String.eqb k k' then Some ((k, v) :: r)
      else match replace k v r with
           | Some r' => Some ((k', v') :: r')
           | None => None
           end
  end.

(** Where a new index key goes: before the first key that is no index or a
    larger one. *)
Fixpoint insert_index (i : N) (k : string) (v : value)
  (fields : list (string * value)) : list (string * value) :=
  match fields with
  | [] => [(k, v)]
  | (k', v') :: r =>
      match index_of k' with
      | Some j => if (j <? i)%N then (k', v') :: insert_index i k v r
                  else (k, v) :: fields
      | None => (k, v) :: fields
      end
  end.

(** Defining property [k]: a repeated key keeps its place and takes the new
    value; index keys come first, in ascending order; other keys follow in
    the order of their creation. *)
Definition define (k : string) (v : value) (fields : list (string * value))
  : list (string * value) :=
  match replace k v fields with
  | Some fields' => fields'
  | None =>
      match index_of k with
      | Some i => insert_index i k v fields
      | None => (fields ++ [(k, v)])%list
      end
  end.

Definition literal (word : string) (v : value) (s : string) : option (value * string) :=
  if String.prefix word s
  then Some (v, String.substring (String.length word)
                  (String.length s - String.length word) s)
  else None.

Fixpoint any (fuel : nat) (s : string) : option (value * string) :=
  match fuel with
  | O => None
  | S fuel' =>
      match skip s with
      | EmptyString => None
      | String c r as s' =>
          let n := nat_of_ascii c in
          if Nat.eqb n 123 then                       (* { *)
            match starts "}" (skip r) with
            | Some rest => Some (JObj [], rest)
            | None => members fuel' r []
            end
          else if Nat.eqb n 91 then                   (* [ *)
            match starts "]" (skip r) with
            | Some rest => Some (JArr [], rest)
            | None => elements fuel' r []
            end
          else if Nat.eqb n 34 then
            match string_body r with
            | Some (ps, rest) => Some (JStr (encode ps), rest)
            | None => None
            end
          else if Nat.eqb n 116 then literal "true" (JBool true) s'
          else if Nat.eqb n 102 then literal "false" (JBool false) s'
          else if Nat.eqb n 110 then literal "null" JNull s'
          else
            match number s' with
            | Some (x, rest) => Some (JNum x, rest)
            | None => None
            end
      end
  end
with elements (fuel : nat) (s : string) (acc : list value)
  : option (value * string) :=
  match fuel with
  | O => None
  | S fuel' =>
      match any fuel' s with
      | Some (v, r) =>
          match skip r with
          | String c r' =>
              if Ascii.eqb c "," then elements fuel' r' (v :: acc)
              else if Ascii.eqb c "]" then Some (JArr (List.rev (v :: acc)), r')
              else None
          | EmptyString => None
          end
      | None => None
      end
  end
with members (fuel : nat) (s : string) (acc : list (string * value))
  : option (value * string) :=
  match fuel with
  | O => None
  | S fuel' =>
      match starts DQUOTE (skip s) with
      | Some r =>
          match string_body r with
          | Some (ps, r1) =>
              match starts ":" (skip r1) with
              | Some r2 =>
                  match any fuel' r2 with
                  | Some (v, r3) =>
                      let acc' := define (encode ps) v acc in
                      match skip r3 with
                      | String c r4 =>
                          if Ascii.eqb c "," then members fuel' r4 acc'
                          else if Ascii.eqb c "}" then Some (JObj acc', r4)
                          else None
                      | EmptyString => None
                      end
                  | None => None
                  end
              | None => None
              end
          | None => None
          end
      | None => None
      end
  end.

(** JSON.parse(text): one value, white space around it, nothing else. *)
Definition parse (text : string) : option value :=
  match any (S (String.length text)) text with
  | Some (v, rest) =>
      if String.eqb (skip rest) EmptyString then Some v else None
  | None => None
  end.

Definition hex4 (n : N) : string :=
  let d i := String (MD5.hex_digit ((n / i) mod 16)%N) EmptyString in
  d 4096%N ++ d 256%N ++ d 16%N ++ d 1%N.

(** QuoteJSONString, without the quotes. *)
Fixpoint escape (s : string) : string :=
  match s with
  | EmptyString => EmptyString
  | String c r =>
      let n := nat_of_ascii c in
      let bs := String (ascii_of_nat 92) EmptyString in
      if Nat.eqb n 34 then bs ++ dq ++ escape r
      else if Nat.eqb n 92 then bs ++ bs ++ escape r
      else if Nat.eqb n 8 then bs ++ "b" ++ escape r
      else if Nat.eqb n 12 then bs ++ "f" ++ escape r
      else if Nat.eqb n 10 then bs ++ "n" ++ escape r
      else if Nat.eqb n 13 then bs ++ "r" ++ escape r
      else if Nat.eqb n 9 then bs ++ "t" ++ escape r
      else if Nat.ltb n 32 then bs ++ "u" ++ hex4 (N.of_nat n) ++ escape r
      else
        match r with
        | String c1 (String c2 r') =>
            let n1 := nat_of_ascii c1 in
            if Nat.eqb n 237 && Nat.leb 160 n1 then   (* a lone surrogate *)
              bs ++ "u"
              ++ hex4 (53248 + 64 * (N.of_nat n1 - 128) + (N_of_ascii c2 - 128))%N
              ++ escape r'
            else String c (escape r)
        | _ => String c (escape r)
        end
  end.

Definition quote (s : string) : string := dq ++ escape s ++ dq.

Definition number_text (x : float) : string :=
  if Numbers.is_finite x then Numbers.to_string x else "null".

(** JSON.stringify(v). *)
Fixpoint stringify (v : value) : string :=
  match v with
  | JNull => "null"
  | JBool true => "true"
  | JBool false => "false"
  | JNum x => number_text x
  | JStr s => quote s
  | JArr items => "[" ++ String.concat "," (map stringify items) ++ "]"
  | JObj fields =>
      "{" ++ String.concat ","
               (map (fun kv => quote (fst kv) ++ ":" ++ stringify (snd kv)) fields)
      ++ "}"
  end.

(** JSON.stringify(v, null, 2), at the current indentation. *)
Fixpoint indented (indent : string) (v : value) : string :=
  let inner := indent ++ "  " in
  match v with
  | JArr ((_ :: _) as items) =>
      "[" ++ nl ++ inner
      ++ String.concat ("," ++ nl ++ inner) (map (indented inner) items)
      ++ nl ++ indent ++ "]"
  | JObj ((_ :: _) as fields) =>
      "{" ++ nl ++ inner
      ++ String.concat ("," ++ nl ++ inner)
           (map (fun kv => quote (fst kv) ++ ": " ++ indented inner (snd kv)) fields)
      ++ nl ++ indent ++ "}"
  | _ => stringify v
  end.

End Json.

Definition received_suffix (v : value) : string :=
  match v with
  | JNum x => " Received type number (" ++ Numbers.to_string x ++ ")"
  | JBool true => " Received type boolean (true)"
  | JBool false => " Received type boolean (false)"
  | JArr _ => " Received an instance of Array"
  | JObj _ => " Received an instance of Object"
  | _ => EmptyString
  end.

Definition message (f : fault) : string :=
  match f with
  | ReadOfNull p => "Cannot read properties of null (reading '" ++ p ++ "')"
  | NotAFunction c => c ++ " is not a function"
  | NotAPrimitive => "Cannot convert object to primitive value"
  | InvalidChunk JNull => "May not write null values to stream"
  | InvalidChunk v =>
      "The " ++ quoted "chunk"
      ++ " argument must be of type string or an instance of Buffer or Uint8Array."
      ++ received_suffix v
  | NotIterable w => w ++ " is not async iterable"
  | JsonSyntax t =>
      if String.eqb (Json.skip t) EmptyString
      then "Unexpected end of JSON input"
      else "Unexpected token in JSON"
  end.

#[export] Instance engine : Engine := {|
  JSON_parse := Json.parse;
  JSON_stringify := Json.stringify;
  JSON_stringify_2 := Json.indented EmptyString;
  Number_toString := Numbers.to_string;
  md5_hex := MD5.md5_hex;
  fault_message := message
|}.

End Reference.

(** ** Statements *)

(** The notions the properties are stated with. *)
Section Notions.

Context {E : Engine}.

(** An own field of [v], [None] when [v] has none of that name. *)
Definition field (v : value) (k : string) : option value :=
  match v with
  | JObj fields => lookup k fields
  | _ => None
  end.

(** The first of [keys] whose field is truthy, as an ordered table of
    extractors. *)
Fixpoint first_truthy (keys : list string) (v : value) : option value :=
  match keys with
  | [] => None
  | k :: rest => if truthy (field v k) then field v k else first_truthy rest v
  end.

(** What a parsed line of the stream contributes: the content of an item,
    else the first truthy of message, text, response; [None] for nothing. *)
Definition stream_choice (v : value) : option value :=
  if strict_eq_string (field v "type") "item" && truthy (field v "content")
  then field v "content"
  else first_truthy ["message"; "text"; "response"] v.

(** The sink after [s] was written and accumulated. *)
Definition forwarded (k : sink) (s : string) : sink :=
  {| written := (written k ++ [s])%list; fullResponse := fullResponse k ++ s |}.

(** The accumulator mirrors what was written. *)
Definition mirrored (k : sink) : Prop :=
  fullResponse k = String.concat EmptyString (written k).

(** A line that [processLine] skips. *)
Definition blank (line : string) : bool := negb (Text.nonempty (Text.trim line)).

(** The text of the stream: the chunks, each decoded, one after the other. *)
Definition text_of_chunks (chunks : list string) : string :=
  String.concat EmptyString (map Text.utf8 chunks).

(** [sub] occurs in [s]. *)
Definition Contains (s sub : string) : Prop :=
  exists before after, s = before ++ sub ++ after.

(** The request passes the check on [message], with the string [msg]. *)
Definition accepted (req : request) (msg : string) : Prop :=
  Get (body req) "message" = Normal (Some (JStr msg)) /\ msg <> EmptyString.

(** The session identifier and the webhook call of an accepted request. *)
Definition id_of (w : world) (req : request) : value :=
  uniqueId w req (field (body req) "sessionId").
Definition call_of (w : world) (req : request) (msg : string) : fetch_call :=
  call_for w msg (id_of w req).

(** The text the caller receives, when the reply is a text body. *)
Definition received (o : outcome) : option string :=
  match response o with
  | Some (SentText _ writes) => Some (String.concat EmptyString writes)
  | _ => None
  end.

(** The sequence of exchanges a history file stands for: the array it
    holds, or nothing when it is absent, empty or not JSON. *)
Inductive holds (d : disk) : list value -> Prop :=
| holds_absent : stored d = None -> holds d []
| holds_empty : stored d = Some EmptyString -> holds d []
| holds_unparsable data :
    stored d = Some data -> JSON_parse data = None -> holds d []
| holds_array data h :
    stored d = Some data -> data <> EmptyString ->
    JSON_parse data = Some (JArr h) -> holds d h.

(** What saveHistory hands to fs.writeFile for the history [h]. *)
Definition file_with (h : list value) : string := JSON_stringify_2 (JArr h).

(** *** The reply rule of the JSON branch, as a table *)





(** *** The rules as the specification words them *)



(** The rule the specification gives for a parsed line of the stream: the
    content of an item, else the rule of the whole-JSON branch. *)
Definition claimed_line_rule (v : value) : completion value :=
  match field v "content" with
  | Some c => if strict_eq_string (field v "type") "item" then Normal c else extract v
  | None => extract v
  end.

End Notions.


(** ** Concrete requests and replies *)

Module Examples.
Import Reference.

(** The JSON text of an object whose values are strings. *)
Definition object (fields : list (string * string)) : string :=
  "{" ++ String.concat ","
           (map (fun kv => quoted (fst kv) ++ ":" ++ quoted (snd kv)) fields)
  ++ "}".

Definition hello : request :=
  {| body := JObj [("message", JStr "hello"); ("sessionId", JStr "s1")];
     x_forwarded_for := Some "203.0.113.7, 10.0.0.1";
     x_real_ip := None; remoteAddress := None; ip := None |}.

(** A request with no message. *)
Definition silent : request :=
  {| body := JObj [("sessionId", JStr "s1")];
     x_forwarded_for := None; x_real_ip := None;
     remoteAddress := Some "127.0.0.1"; ip := None |}.

(** A world whose webhook answers every call with [r]. *)
Definition webhook (r : completion upstream) : world :=
  {| startTime := "2024-05-01T10:00:00.000Z";
     now1 := 1714557600000; now2 := 1714557600001;
     fetch := fun _ => r |}.

Definition reply (code : N) (contentType : string) (chunks : list string) : upstream :=
  {| status := code; statusText := EmptyString;
     content_type := Some contentType; stream := Some chunks |}.

(** The two chunks of the stream of items, cut inside the second line. *)
Definition chunk1 : string :=
  object [("type", "item"); ("content", "foo")] ++ nl ++ "{" ++ dq ++ "ty".
Definition chunk2 : string :=
  "pe" ++ dq ++ ":" ++ quoted "item" ++ "," ++ quoted "content" ++ ":"
  ++ quoted "bar" ++ "}" ++ nl.

Definition item_line : string := object [("type", "item"); ("content", "foo")].
Definition begin_line : string := object [("type", "begin")].
Definition response_text_line : string := object [("response", "r"); ("text", "t")].
Definition output_line : string := object [("output", "x")].
Definition output_array : string := "[" ++ object [("output", "x")] ++ "]".
Definition response_hi : string := object [("response", "hi")].

(** The reply 204 No Content: no content type, a null body. *)
Definition no_content : upstream :=
  {| status := 204; statusText := "No Content";
     content_type := None; stream := None |}.

(** A request that came with no body. *)
Definition bodyless : request :=
  {| body := JNull;
     x_forwarded_for := None; x_real_ip := None;
     remoteAddress := Some "127.0.0.1"; ip := None |}.

Definition exchange : entry :=
  {| userMessage := "hello"; botResponse := "hi";
     timestamp := "2024-05-01T10:00:00.000Z"; sessionId := JStr "s1" |}.

Definition disk_with (content : string) : disk :=
  {| stored := Some content; accepts_write := true |}.

(** A request whose message is a number. *)
Definition numeric : request :=
  {| body := JObj [("message", JNum PrimFloat.one)];
     x_forwarded_for := None; x_real_ip := None;
     remoteAddress := Some "127.0.0.1"; ip := None |}.

(** The same world a millisecond later. *)
Definition later (w : world) : world :=
  {| startTime := startTime w; now1 := now1 w + 1; now2 := now2 w + 1;
     fetch := fetch w |}.


(** The two bytes of the letter e with an acute accent. *)
Definition E_ACUTE_1 : ascii := ascii_of_nat 195.
Definition E_ACUTE_2 : ascii := ascii_of_nat 169.

Definition second_exchange : entry :=
  {| userMessage := "again"; botResponse := "yes";
     timestamp := "2024-05-01T10:01:00.000Z"; sessionId := JStr "s1" |}.

End Examples.

(** ** Further notions *)

Section MoreNotions.

Context {E : Engine}.

(** [c] occurs in [s]. *)
Fixpoint mentions (c : ascii) (s : string) : bool :=
  match s with
  | EmptyString => false
  | String c' r => Ascii.eqb c' c || mentions c r
  end.

(** Every byte of [s] is below 128. *)
Fixpoint ascii_only (s : string) : bool :=
  match s with
  | EmptyString => true
  | String c r => Nat.leb (nat_of_ascii c) 127 && ascii_only r
  end.

(** The lead byte and the continuation byte of a two-byte character. *)
Definition two_byte (a b : ascii) : Prop :=
  194 <= nat_of_ascii a <= 223 /\ 128 <= nat_of_ascii b <= 191.

(** The engine reads back the history it wrote. *)
Definition reads_back (h : list value) : Prop :=
  file_with h <> EmptyString /\ JSON_parse (file_with h) = Some (JArr h).

(** What becomes of the history file once the calls to saveHistory of an
    outcome have run, each on the file [d] with the clock at [savedAt]. *)
Definition persist (d : disk) (savedAt : string) (o : outcome) : list save_outcome :=
  map (saveHistory d savedAt) (logged o).

(** The event of the stream that carries the text [c]. *)
Definition item (c : string) : value :=
  JObj [("type", JStr "item"); ("content", JStr c)].

(** The lines that [processLine] does not skip. *)
Definition nonblank (lines : list string) : list string :=
  filter (fun l => negb (blank l)) lines.

(** The session identifier in the JSON payload of a reply. *)
Definition session_id_in (o : outcome) : option value :=
  match response o with
  | Some (SentJson _ payload) => field payload "sessionId"
  | _ => None
  end.



(** A lower-case hexadecimal digit. *)
Definition is_hex (c : ascii) : bool :=
  let n := nat_of_ascii c in
  (Nat.leb 48 n && Nat.leb n 57) || (Nat.leb 97 n && Nat.leb n 102).

Fixpoint all_hex (s : string) : bool :=
  match s with
  | EmptyString => true
  | String c r => is_hex c && all_hex r
  end.

End MoreNotions.
(** ** Lemmas on strings and lists *)

Lemma append_nil_r (s : string) : s ++ EmptyString = s.
Proof. induction s as [|c s IH]; simpl; [reflexivity | now rewrite IH]. Qed.

Lemma append_assoc (a b c : string) : (a ++ b) ++ c = a ++ b ++ c.
Proof. induction a as [|x a IH]; simpl; [reflexivity | now rewrite IH]. Qed.

Lemma concat_snoc (l : list string) (s : string) :
  String.concat EmptyString (l ++ [s])%list = String.concat EmptyString l ++ s.
Proof.
  induction l as [|x l IH]; simpl.
  - reflexivity.
  - destruct l as [|y l]; simpl in *.
    + reflexivity.
    + rewrite IH. now rewrite append_assoc.
Qed.

Lemma nonempty_true (s : string) : Text.nonempty s = true <-> s <> EmptyString.
Proof.
  unfold Text.nonempty. destruct s; simpl; split; intros H; try easy.
Qed.

Lemma split_not_nil (sep : ascii) (s : string) : Text.split sep s <> [].
Proof.
  induction s as [|c s IH]; simpl; [discriminate|].
  destruct (Ascii.eqb c sep); [discriminate|].
  destruct (Text.split sep s); [congruence | discriminate].
Qed.

Lemma split_append (sep : ascii) (a b : string) :
  Text.split sep (a ++ b)
  = (removelast (Text.split sep a)
     ++ Text.split sep (last (Text.split sep a) EmptyString ++ b))%list.
Proof.
  induction a as [|c a IH]; simpl.
  - reflexivity.
  - destruct (Ascii.eqb c sep) eqn:Hc.
    + rewrite IH.
      destruct (Text.split sep a) as [|h t] eqn:Hs;
        [now apply split_not_nil in Hs|].
      reflexivity.
    + rewrite IH.
      destruct (Text.split sep a) as [|h t] eqn:Hs;
        [now apply split_not_nil in Hs|].
      destruct t as [|y t].
      * simpl. rewrite Hc. reflexivity.
      * reflexivity.
Qed.

Lemma removelast_append {A} (l l' : list A) :
  l' <> [] -> removelast (l ++ l')%list = (l ++ removelast l')%list.
Proof.
  intros Hl'. induction l as [|x l IH]; simpl; [reflexivity|].
  rewrite IH. destruct (l ++ l')%list eqn:Happ; [|reflexivity].
  apply app_eq_nil in Happ as [_ ->]. congruence.
Qed.

Lemma last_append {A} (l l' : list A) (d : A) :
  l' <> [] -> last (l ++ l')%list d = last l' d.
Proof.
  intros Hl'. induction l as [|x l IH]; simpl; [reflexivity|].
  rewrite IH. destruct (l ++ l')%list eqn:Happ; [|reflexivity].
  apply app_eq_nil in Happ as [_ ->]. congruence.
Qed.

Lemma removelast_last {A} (l : list A) (d : A) :
  l <> [] -> (removelast l ++ [last l d])%list = l.
Proof.
  induction l as [|x l IH]; [congruence|]. intros _.
  destruct l as [|y l]; [reflexivity|].
  change (x :: (removelast (y :: l) ++ [last (y :: l) d])%list = x :: y :: l).
  now rewrite IH.
Qed.

(** ** The streaming branch, line by line *)

Section Lines.

Context {E : Engine}.

Lemma Get_field (v : value) (k : string) :
  v <> JNull -> Get v k = Normal (field v k).
Proof. destruct v; simpl; congruence. Qed.

Lemma emit_if_truthy (o : option value) (k : sink) (c : completion sink) :
  emit_if o k c =
  if truthy o then match o with Some v => emit v k | None => c end else c.
Proof. destruct o as [v|]; simpl; [destruct (ToBoolean v)|]; reflexivity. Qed.

Lemma or_first_truthy (v : value) :
  let pickup := or (or (field v "message") (field v "text")) (field v "response") in
  first_truthy ["message"; "text"; "response"] v
  = if truthy pickup then pickup else None.
Proof.
  cbv zeta. simpl first_truthy. unfold or.
  destruct (truthy (field v "message")) eqn:Hm;
    [|destruct (truthy (field v "text")) eqn:Ht;
      [|destruct (truthy (field v "response")) eqn:Hr]];
    repeat (cbv iota; rewrite ?Hm, ?Ht, ?Hr); reflexivity.
Qed.

Lemma stream_choice_truthy (v : value) (c : value) :
  stream_choice v = Some c -> ToBoolean c = true.
Proof.
  unfold stream_choice.
  destruct (strict_eq_string (field v "type") "item" && truthy (field v "content"))
    eqn:Hitem.
  - apply andb_true_iff in Hitem as [_ Hc]. intros Heq. now rewrite Heq in Hc.
  - simpl.
    repeat match goal with
    | |- context [truthy (field v ?k)] =>
        let H := fresh in
        destruct (truthy (field v k)) eqn:H;
        [intros Heq; now rewrite Heq in H|]
    end.
    discriminate.
Qed.

(** The [try] body, read through the table of extractors. *)
Lemma forward_choice (v : value) (k : sink) :
  v <> JNull ->
  forward v k =
  match stream_choice v with
  | Some c => emit c k
  | None => Normal k
  end.
Proof.
  intros Hv. unfold forward.
  rewrite (Get_field v "type" Hv). simpl bind.
  assert (Hc : (if strict_eq_string (field v "type") "item"
                then Get v "content" else Normal None)
               = Normal (if strict_eq_string (field v "type") "item"
                         then field v "content" else None)).
  { destruct (strict_eq_string (field v "type") "item");
      [apply Get_field; assumption | reflexivity]. }
  rewrite Hc. simpl bind.
  rewrite !(Get_field v _ Hv). simpl bind.
  rewrite !emit_if_truthy.
  unfold stream_choice. rewrite or_first_truthy.
  destruct (strict_eq_string (field v "type") "item"); simpl.
  - destruct (field v "content") as [c|] eqn:Hcontent; simpl.
    + destruct (ToBoolean c); [reflexivity|].
      destruct (truthy _) eqn:Hp; [|reflexivity].
      destruct (or _ _) as [x|]; [reflexivity | discriminate].
    + destruct (truthy _) eqn:Hp; [|reflexivity].
      destruct (or _ _) as [x|]; [reflexivity | discriminate].
  - destruct (truthy _) eqn:Hp; [|reflexivity].
    destruct (or _ _) as [x|]; [reflexivity | discriminate].
Qed.

(** What [processLine] does to the sink, in every case. *)
Lemma processLine_cases (k : sink) (line : string) :
  processLine k line =
  if blank line then k
  else match JSON_parse line with
       | None => forwarded k line
       | Some JNull => forwarded k line
       | Some v =>
           match stream_choice v with
           | Some (JStr s) => forwarded k s
           | Some _ => forwarded k line
           | None => k
           end
       end.
Proof.
  unfold processLine, blank, parse.
  destruct (Text.nonempty (Text.trim line)); simpl; [|reflexivity].
  destruct (JSON_parse line) as [v|]; simpl; [|reflexivity].
  destruct v; try reflexivity;
    match goal with
    | |- context [forward ?v k] =>
        rewrite (forward_choice v k) by discriminate;
        destruct (stream_choice v) as [[]|]; reflexivity
    end.
Qed.

Lemma mirrored_forwarded (k : sink) (s : string) :
  mirrored k -> mirrored (forwarded k s).
Proof.
  unfold mirrored, forwarded; simpl. intros ->. now rewrite concat_snoc.
Qed.

Lemma mirrored_processLine (k : sink) (line : string) :
  mirrored k -> mirrored (processLine k line).
Proof.
  intros Hk. rewrite processLine_cases.
  destruct (blank line); [assumption|].
  destruct (JSON_parse line) as [v|]; [|now apply mirrored_forwarded].
  destruct v; try (now apply mirrored_forwarded);
    destruct (stream_choice _) as [[]|];
    try assumption; now apply mirrored_forwarded.
Qed.

Lemma mirrored_lines (lines : list string) (k : sink) :
  mirrored k -> mirrored (fold_left processLine lines k).
Proof.
  revert k. induction lines as [|l lines IH]; simpl; intros k Hk.
  - assumption.
  - apply IH. now apply mirrored_processLine.
Qed.

Lemma mirrored_chunks (chunks : list string) (st : sink * string) :
  mirrored (fst st) -> mirrored (fst (fold_left onChunk chunks st)).
Proof.
  revert st. induction chunks as [|c chunks IH]; simpl; intros st Hst.
  - assumption.
  - apply IH. unfold onChunk; simpl. now apply mirrored_lines.
Qed.

Lemma mirrored_relay (chunks : list string) : mirrored (relay chunks).
Proof.
  unfold relay. apply mirrored_processLine, mirrored_chunks. reflexivity.
Qed.

End Lines.

(** ** The reference engine on known values *)

Section ReferenceChecks.

Import Reference.

(** The test suite of RFC 1321. *)
Example md5_of_empty : MD5.md5_hex EmptyString = "d41d8cd98f00b204e9800998ecf8427e".
Proof. vm_compute. reflexivity. Qed.

Example md5_of_abc : MD5.md5_hex "abc" = "900150983cd24fb0d6963f7d28e17f72".
Proof. vm_compute. reflexivity. Qed.

Example md5_of_digits :
  MD5.md5_hex
    "12345678901234567890123456789012345678901234567890123456789012345678901234567890"
  = "57edf4a22be3c955ac49da2e2107b67a".
Proof. vm_compute. reflexivity. Qed.

(** Number to String: integers, fractions, the switch to exponents at 1e21
    and 1e-7, the smallest and the largest finite number. *)
Example number_texts :
  map (fun lit => option_map Json.stringify (Json.parse lit))
    ["503"; "0.5"; "-0"; "100"; "1e21"; "123456789012345680000"; "0.000001";
     "1e-7"; "0.1"; "4.35"; "5e-324"; "2e-324"; "1.7976931348623157e308";
     "1e309"; "9007199254740993"]
  = map Some
    ["503"; "0.5"; "0"; "100"; "1e+21"; "123456789012345680000"; "0.000001";
     "1e-7"; "0.1"; "4.35"; "5e-324"; "0"; "1.7976931348623157e+308";
     "null"; "9007199254740992"].
Proof. vm_compute. reflexivity. Qed.

(** Texts that JSON.parse rejects. *)
Example not_json :
  map Json.parse
    ["01"; "1."; ".5"; "-"; "[1,]"; "{,}"; "tru"; "nulll"; EmptyString;
     "1 2"; "+1"; "{a:1}"; "'a'"; "[1"; "not json {"]
  = map (fun _ => None) (seq 0 15).
Proof. vm_compute. reflexivity. Qed.

(** Keys are kept once, index keys first; escapes are read and written. *)
Example parse_then_stringify :
  option_map Json.stringify
    (Json.parse ("{" ++ quoted "b" ++ ":1, " ++ quoted "10" ++ ":[true,null],"
                 ++ quoted "2" ++ ":" ++ quoted "aA\n\/" ++ ", "
                 ++ quoted "b" ++ " : {}}"))
  = Some ("{" ++ quoted "2" ++ ":" ++ quoted "aA\n/" ++ "," ++ quoted "10"
          ++ ":[true,null]," ++ quoted "b" ++ ":{}}").
Proof. vm_compute. reflexivity. Qed.

Example session_id_of_hello :
  createSessionId (getClientIP Examples.hello) 1714557600000 1714557600001
  = "sg_d7427cc1_1714557600001".
Proof. vm_compute. reflexivity. Qed.

End ReferenceChecks.

(** ** The carry-over buffer *)

Section Buffer.

Context {E : Engine}.

Lemma text_of_chunks_cons (c : string) (chunks : list string) :
  text_of_chunks (c :: chunks) = Text.utf8 c ++ text_of_chunks chunks.
Proof.
  unfold text_of_chunks. destruct chunks as [|c' chunks]; simpl.
  - now rewrite append_nil_r.
  - reflexivity.
Qed.

Lemma fold_processLine_app (l l' : list string) (k : sink) :
  fold_left processLine (l ++ l')%list k
  = fold_left processLine l' (fold_left processLine l k).
Proof. apply fold_left_app. Qed.

(** After at least one chunk, the loop has processed every line of the text
    received so far but the last, which is the buffer. *)
Lemma loop_lines (c : string) (chunks : list string) (k : sink) (buffer : string) :
  fold_left onChunk (c :: chunks) (k, buffer)
  = (fold_left processLine
       (removelast (Text.split LF (buffer ++ text_of_chunks (c :: chunks)))) k,
     last (Text.split LF (buffer ++ text_of_chunks (c :: chunks))) EmptyString).
Proof.
  revert c k buffer. induction chunks as [|c' chunks IH]; intros c k buffer.
  - simpl. unfold onChunk, text_of_chunks. reflexivity.
  - change (fold_left onChunk (c :: c' :: chunks) (k, buffer))
      with (fold_left onChunk (c' :: chunks) (onChunk (k, buffer) c)).
    unfold onChunk at 2. simpl fst. simpl snd.
    rewrite IH. rewrite (text_of_chunks_cons c (c' :: chunks)).
    rewrite <- append_assoc.
    rewrite (split_append LF (buffer ++ Text.utf8 c)).
    rewrite removelast_append by apply split_not_nil.
    rewrite last_append by apply split_not_nil.
    now rewrite fold_processLine_app.
Qed.

(** The relay is the line rule applied, in order, to the lines of the whole
    text: where the chunks are cut does not matter. *)
Lemma relay_is_by_lines (chunks : list string) :
  relay chunks = fold_left processLine (Text.split LF (text_of_chunks chunks)) start.
Proof.
  unfold relay. destruct chunks as [|c chunks].
  - reflexivity.
  - rewrite loop_lines. simpl fst. simpl snd.
    change (EmptyString ++ text_of_chunks (c :: chunks))
      with (text_of_chunks (c :: chunks)).
    set (lines := Text.split LF (text_of_chunks (c :: chunks))).
    rewrite <- (removelast_last lines EmptyString) at 3 by apply split_not_nil.
    now rewrite fold_processLine_app.
Qed.

End Buffer.

(** ** The JSON branch *)

Section WholeBody.

Context {E : Engine}.






End WholeBody.

(** ** The handler *)

Section Handler.

Context {E : Engine}.

Lemma accepted_body (req : request) (msg : string) :
  accepted req msg -> body req <> JNull.
Proof. intros [H _] Hnull. rewrite Hnull in H. discriminate. Qed.

(** An accepted request reaches the [try]. *)
Lemma chat_accepted (w : world) (req : request) (msg : string) :
  accepted req msg -> chat w req = attempt w msg (id_of w req).
Proof.
  intros Hacc. pose proof (accepted_body _ _ Hacc) as Hbody.
  destruct Hacc as [Hm Hne]. unfold chat.
  rewrite Hm. simpl bind.
  rewrite (Get_field _ "sessionId" Hbody). simpl bind.
  apply nonempty_true in Hne. unfold Text.nonempty in Hne.
  unfold truthy, ToBoolean. rewrite Hne. reflexivity.
Qed.

Lemma chat_answered (w : world) (req : request) (msg : string) (r : upstream) :
  accepted req msg -> fetch w (call_of w req msg) = Normal r ->
  chat w req = answer w msg (id_of w req) r.
Proof.
  intros Hacc Hr. rewrite (chat_accepted _ _ _ Hacc).
  unfold attempt. unfold call_of in Hr. now rewrite Hr.
Qed.

(** The log, for a history file that stands for [h]. *)
Lemma saveHistory_appends (d : disk) (h : list value) (savedAt : string) (x : entry) :
  holds d h ->
  saveHistory d savedAt x =
  if accepts_write d
  then Saved (file_with (h ++ [record_of x savedAt]))
  else WriteFailed (file_with (h ++ [record_of x savedAt])).
Proof.
  unfold saveHistory, file_with, parse.
  intros [Hs | Hs | data Hs Hp | data h' Hs Hne Hp]; rewrite Hs.
  - reflexivity.
  - reflexivity.
  - rewrite Hp. now destruct (Text.nonempty data).
  - apply nonempty_true in Hne. rewrite Hne, Hp. reflexivity.
Qed.



End Handler.

(** ** The properties of the relay *)

Section Claims.

Context {E : Engine}.

(** C1 (amended). In the streaming branch, a line that is not blank and
    parses as JSON goes through a rule of its own, not the rule of the
    whole-JSON branch: the content of an object with type "item" and a
    truthy content; else the first truthy of message, text, response, in
    that order; else nothing is written. There is no case for a payload that
    is a string, for output, for arrays, and no serialization fallback. A
    chosen value that is no string, and the value null, make the [try] throw,
    and the [catch] writes the line as it is. *)
Theorem stream_line_extraction (k : sink) (line : string) (v : value) :
  blank line = false ->
  JSON_parse line = Some v ->
  processLine k line =
  match v with
  | JNull => forwarded k line
  | _ =>
      match stream_choice v with
      | Some (JStr s) => forwarded k s
      | Some _ => forwarded k line
      | None => k
      end
  end.
Proof.
  intros Hb Hp. rewrite processLine_cases, Hb, Hp.
  destruct v; reflexivity.
Qed.

(** C2 (amended). In the streaming branch, a line that is not blank and
    fails to parse as JSON is written to the caller unchanged and added to
    the accumulator; a line that parses (to a value other than null) and
    from which nothing is extracted is dropped: nothing is written and
    nothing is accumulated. A blank line is skipped. *)
Theorem stream_line_raw_or_dropped (k : sink) (line : string) :
  (JSON_parse line = None ->
   processLine k line = if blank line then k else forwarded k line)
  /\ (forall v, JSON_parse line = Some v -> v <> JNull ->
      stream_choice v = None -> processLine k line = k).
Proof.
  split.
  - intros Hp. now rewrite processLine_cases, Hp.
  - intros v Hp Hv Hc. rewrite processLine_cases, Hp, Hc.
    destruct (blank line); [reflexivity|]. destruct v; congruence.
Qed.



(** C6. When the call to the webhook fails, the caller gets status 500 with
    the JSON payload {error, details}, details being the message of the
    failure; saveHistory is not called, so the history file is not
    touched. *)
Theorem transport_failure_answers_500_unlogged (w : world) (req : request)
    (msg : string) (e : Error) :
  accepted req msg ->
  fetch w (call_of w req msg) = Throw e ->
  chat w req =
  {| response := Some (SentJson 500
        (JObj [("error", JStr "Internal Server Error");
               ("details", JStr (message_of e))]));
     uncaught := None;
     fetched := [call_of w req msg];
     logged := [] |}.
Proof.
  intros Hacc Hr. rewrite (chat_accepted _ _ _ Hacc).
  unfold attempt. unfold call_of in Hr. now rewrite Hr.
Qed.

(** C7. When the history file is absent, or holds text that is not JSON,
    saveHistory does not throw and hands fs.writeFile the array of one
    element, the object {timestamp, sessionId, userMessage, botResponse,
    savedAt} of the new record, which is then the content of the file (short
    of an error of fs.writeFile itself): what was there is discarded. *)
Theorem unreadable_history_restarts (d : disk) (savedAt : string) (x : entry) :
  stored d = None \/ (exists data, stored d = Some data /\ JSON_parse data = None) ->
  saveHistory d savedAt x =
  if accepts_write d
  then Saved (JSON_stringify_2
                (JArr [JObj [("timestamp", JStr (timestamp x));
                             ("sessionId", sessionId x);
                             ("userMessage", JStr (userMessage x));
                             ("botResponse", JStr (botResponse x));
                             ("savedAt", JStr savedAt)]]))
  else WriteFailed (JSON_stringify_2
                (JArr [JObj [("timestamp", JStr (timestamp x));
                             ("sessionId", sessionId x);
                             ("userMessage", JStr (userMessage x));
                             ("botResponse", JStr (botResponse x));
                             ("savedAt", JStr savedAt)]])).
Proof.
  intros [Habsent | [data [Hs Hp]]].
  - apply (saveHistory_appends d [] savedAt x). now apply holds_absent.
  - apply (saveHistory_appends d [] savedAt x). now apply holds_unparsable with data.
Qed.

(** A request that comes with no body does not reach the check on the
    message: reading [message] off the missing body throws, before the check
    and before the [try]; the handler sends nothing. *)
Lemma bodyless_request_throws (w : world) (req : request) :
  body req = JNull ->
  chat w req
  = {| response := None;
       uncaught := Some (Fault (ReadOfNull "message"));
       fetched := []; logged := [] |}.
Proof. intros Hb. unfold chat. now rewrite Hb. Qed.

(** C8 (amended). A chat request from which no truthy message can be read
    (it has no body; or its body has no message, or a falsy one: the empty
    string, 0, false, null) makes no call to the webhook and no call to
    saveHistory; and when it has a body, it is answered with status 400 and
    the JSON error {error: "Message is required"}. *)
Theorem missing_message_rejected (w : world) (req : request) :
  body req = JNull
  \/ (exists m, Get (body req) "message" = Normal m /\ truthy m = false) ->
  fetched (chat w req) = []
  /\ logged (chat w req) = []
  /\ (body req <> JNull ->
      chat w req =
      {| response := Some (SentJson 400
            (JObj [("error", JStr "Message is required")]));
         uncaught := None; fetched := []; logged := [] |}).
Proof.
  intros [Hnull | [m [Hm Ht]]].
  - rewrite (bodyless_request_throws w req Hnull). now repeat split.
  - assert (Hbody : body req <> JNull).
    { intros Hnull. rewrite Hnull in Hm. discriminate. }
    assert (H : chat w req =
                {| response := Some (SentJson 400
                      (JObj [("error", JStr "Message is required")]));
                   uncaught := None; fetched := []; logged := [] |}).
    { unfold chat. rewrite Hm. cbn [bind].
      rewrite (Get_field _ "sessionId" Hbody). cbn [bind]. now rewrite Ht. }
    rewrite H. now repeat split.
Qed.

(** C10. On a successful upstream reply, whenever the handler calls
    saveHistory it has sent a text body, and the bot response it hands to
    saveHistory is exactly the concatenation of the strings it wrote to the
    caller. That is the case of every reply without a JSON content type
    that has a body, and of every JSON reply from which a string is
    extracted. In the other cases (the JSON branch throws before its write;
    the body of a reply without a JSON content type is null, as for status
    204, so that it cannot be iterated) the caller gets status 500, nothing
    was written and saveHistory is not called. *)
Theorem logged_reply_is_what_was_written (w : world) (req : request)
    (msg : string) (r : upstream) :
  accepted req msg ->
  fetch w (call_of w req msg) = Normal r ->
  ok r = true ->
  (exists headers writes,
      response (chat w req) = Some (SentText headers writes)
      /\ logged (chat w req)
         = [{| userMessage := msg;
               botResponse := String.concat EmptyString writes;
               timestamp := startTime w;
               sessionId := id_of w req |}]
      /\ (is_json (content_type r) = true
          \/ exists chunks, stream r = Some chunks /\ writes = written (relay chunks)))
  \/ (logged (chat w req) = []
      /\ (exists payload, response (chat w req) = Some (SentJson 500 payload))
      /\ (is_json (content_type r) = true \/ stream r = None)).
Proof.
  intros Hacc Hr Hok.
  rewrite (chat_answered _ _ _ _ Hacc Hr). unfold answer. rewrite Hok. simpl negb.
  cbv iota. destruct (is_json (content_type r)) eqn:Hct.
  - destruct (data <- json r ;; extract data) as [[| | |s| |]|e];
      try (right; split; [reflexivity|]; split; [eexists; reflexivity | now left]).
    left. exists text_plain, [s]. split; [reflexivity|]. split; [|now left].
    cbn [logged String.concat]. reflexivity.
  - destruct (stream r) as [chunks|] eqn:Hs.
    + left. eexists. eexists. split; [reflexivity|]. split.
      * cbn [logged written]. unfold log_for.
        now rewrite (mirrored_relay chunks).
      * right. now exists chunks.
    + right. split; [reflexivity|]. split; [eexists; reflexivity | now right].
Qed.

(** X1. Where the upstream cuts its chunks does not matter: two streams
    with the same text are relayed alike. *)
Theorem chunking_is_immaterial (chunks chunks' : list string) :
  text_of_chunks chunks = text_of_chunks chunks' ->
  relay chunks = relay chunks'.
Proof. intros H. now rewrite !relay_is_by_lines, H. Qed.

(** X2. An accepted chat request makes exactly one call to the webhook,
    whatever the webhook answers. *)
Theorem accepted_request_calls_once (w : world) (req : request) (msg : string) :
  accepted req msg -> fetched (chat w req) = [call_of w req msg].
Proof.
  intros Hacc. rewrite (chat_accepted _ _ _ Hacc). unfold attempt, call_of.
  destruct (fetch w _) as [r|e]; [|reflexivity].
  unfold answer. destruct (negb (ok r)); [reflexivity|].
  destruct (is_json (content_type r)); [|destruct (stream r); reflexivity].
  destruct (data <- json r ;; extract data) as [[| | | | |]|]; reflexivity.
Qed.

(** saveHistory throws on a history file that holds JSON other than an
    array, whatever the engine. *)
Lemma saveHistory_throws_on_non_array (d : disk) (data savedAt : string)
    (x : entry) (v : value) :
  stored d = Some data -> data <> EmptyString -> JSON_parse data = Some v ->
  (forall h, v <> JArr h) ->
  exists e, saveHistory d savedAt x = Crashed e.
Proof.
  intros Hs Hne Hp Hv. unfold saveHistory, parse.
  apply nonempty_true in Hne. rewrite Hs, Hne, Hp.
  destruct v; simpl; try (eexists; reflexivity).
  now destruct (Hv items).
Qed.

End Claims.

(** ** Lines, substrings and decoding *)

Section TextFacts.

Context {E : Engine}.

Lemma concat_cons_cons (sep x y : string) (l : list string) :
  String.concat sep (x :: y :: l) = x ++ sep ++ String.concat sep (y :: l).
Proof. reflexivity. Qed.

(** Joining what [split] gave with the separator gives the text back. *)
Lemma concat_split (sep : ascii) (s : string) :
  String.concat (String sep EmptyString) (Text.split sep s) = s.
Proof.
  induction s as [|c s IH]; [reflexivity|]. simpl Text.split.
  destruct (Ascii.eqb c sep) eqn:Hc.
  - apply Ascii.eqb_eq in Hc. subst c.
    destruct (Text.split sep s) as [|h t] eqn:Hs;
      [now apply split_not_nil in Hs|].
    rewrite concat_cons_cons, IH. reflexivity.
  - destruct (Text.split sep s) as [|h t] eqn:Hs;
      [now apply split_not_nil in Hs|].
    rewrite <- IH. destruct t as [|y t]; reflexivity.
Qed.

(** No piece that [split] gives holds the separator. *)
Lemma split_pieces (sep : ascii) (s : string) :
  Forall (fun piece => mentions sep piece = false) (Text.split sep s).
Proof.
  induction s as [|c s IH]; simpl.
  - now constructor.
  - destruct (Ascii.eqb c sep) eqn:Hc.
    + now constructor.
    + destruct (Text.split sep s) as [|h t]; inversion IH; subst.
      * constructor; [simpl; now rewrite Hc | constructor].
      * constructor; [simpl; now rewrite Hc | assumption].
Qed.

Lemma Forall_removelast {A} (P : A -> Prop) (l : list A) :
  Forall P l -> Forall P (removelast l).
Proof.
  induction 1 as [|x l Hx Hl IH]; simpl; [constructor|].
  destruct l; [constructor | now constructor].
Qed.

Lemma Forall_last {A} (P : A -> Prop) (l : list A) (d : A) :
  Forall P l -> l <> [] -> P (last l d).
Proof.
  induction 1 as [|x l Hx Hl IH]; [congruence|]. intros _.
  destruct l; [assumption|]. apply IH. discriminate.
Qed.

(** The loop after any number of chunks, the empty list included. *)
Lemma loop_state (chunks : list string) :
  fold_left onChunk chunks (start, EmptyString)
  = (fold_left processLine
       (removelast (Text.split LF (text_of_chunks chunks))) start,
     last (Text.split LF (text_of_chunks chunks)) EmptyString).
Proof.
  destruct chunks as [|c chunks]; [reflexivity|]. now rewrite loop_lines.
Qed.

(** X3. The carry-over buffer of the streaming loop: after any number of
    chunks the buffer holds no newline, the lines handed to the line rule
    hold none either, and those lines followed by the buffer, joined by
    newlines, are exactly the text received so far: nothing is lost and
    nothing is handed over twice. *)
Theorem buffer_keeps_the_unfinished_line (chunks : list string) :
  exists lines,
    fst (fold_left onChunk chunks (start, EmptyString))
    = fold_left processLine lines start
    /\ Forall (fun l => mentions LF l = false) lines
    /\ mentions LF (snd (fold_left onChunk chunks (start, EmptyString))) = false
    /\ String.concat nl
         (lines ++ [snd (fold_left onChunk chunks (start, EmptyString))])%list
       = text_of_chunks chunks.
Proof.
  rewrite loop_state. simpl fst. simpl snd.
  pose proof (split_pieces LF (text_of_chunks chunks)) as Hp.
  pose proof (split_not_nil LF (text_of_chunks chunks)) as Hn.
  exists (removelast (Text.split LF (text_of_chunks chunks))).
  split; [reflexivity|].
  split; [now apply Forall_removelast|].
  split; [now apply (Forall_last _ _ EmptyString Hp)|].
  rewrite removelast_last by assumption. apply concat_split.
Qed.

Lemma prefix_append (a b : string) :
  String.prefix a b = true <-> exists rest, b = a ++ rest.
Proof.
  revert b. induction a as [|x a IH]; intros b.
  - destruct b; simpl; split; intros; try reflexivity; eauto.
  - destruct b as [|y b]; simpl.
    + split; [discriminate | intros [rest H]; discriminate].
    + destruct (ascii_dec x y) as [->|Hxy].
      * rewrite IH. split; intros [rest H].
        -- exists rest. now rewrite H.
        -- exists rest. now inversion H.
      * split; [discriminate | intros [rest H]]. inversion H. congruence.
Qed.

(** [includes] is the occurrence of a substring. *)
Lemma includes_contains (hay needle : string) :
  Text.includes hay needle = true <-> Contains hay needle.
Proof.
  unfold Contains. induction hay as [|c hay IH].
  - change (Text.includes EmptyString needle)
      with (String.prefix needle EmptyString || false).
    rewrite orb_false_r, prefix_append. split.
    + intros [rest H]. exists EmptyString, rest. exact H.
    + intros [before [after H]]. destruct before; [|discriminate].
      exists after. exact H.
  - change (Text.includes (String c hay) needle)
      with (String.prefix needle (String c hay) || Text.includes hay needle).
    rewrite orb_true_iff, prefix_append, IH. split.
    + intros [[rest H] | [before [after H]]].
      * exists EmptyString, rest. exact H.
      * exists (String c before), after. simpl. now rewrite H.
    + intros [before [after H]]. destruct before as [|c' before].
      * left. exists after. exact H.
      * right. exists before, after. now inversion H.
Qed.

(** X4. A successful reply goes to the whole-JSON branch exactly when its
    content-type header is present and contains application/json, in that
    spelling, anywhere in its value; every other reply, and a reply with no
    content type, is streamed. *)
Theorem json_branch_iff_content_type_mentions_json (contentType : option string) :
  is_json contentType = true
  <-> exists t, contentType = Some t /\ Contains t "application/json".
Proof.
  unfold is_json. destruct contentType as [t|].
  - rewrite andb_true_iff, includes_contains, nonempty_true. split.
    + intros [_ H]. now exists t.
    + intros [t' [Heq H]]. inversion Heq; subst t'. split; [|assumption].
      destruct H as [before [after H]]. intros Ht. rewrite Ht in H.
      destruct before; discriminate.
  - split; [discriminate | intros [t [H _]]; discriminate].
Qed.

Lemma decode_ascii (s rest : string) :
  ascii_only s = true ->
  Text.decode (s ++ rest) EmptyString 0 128 191
  = s ++ Text.decode rest EmptyString 0 128 191.
Proof.
  induction s as [|c s IH]; simpl ascii_only; intros H; [reflexivity|].
  apply andb_true_iff in H as [Hc Hs].
  change (String c s ++ rest) with (String c (s ++ rest)).
  cbn [Text.decode]. cbn [Nat.eqb negb andb].
  unfold Text.lead. rewrite Hc. cbn [append]. now rewrite IH.
Qed.

Lemma utf8_ascii (s : string) : ascii_only s = true -> Text.utf8 s = s.
Proof.
  intros H. unfold Text.utf8.
  rewrite <- (append_nil_r s) at 1. rewrite (decode_ascii s EmptyString H).
  simpl. apply append_nil_r.
Qed.

Lemma text_of_ascii_chunks (chunks : list string) :
  Forall (fun c => ascii_only c = true) chunks ->
  text_of_chunks chunks = String.concat EmptyString chunks.
Proof.
  unfold text_of_chunks. induction 1 as [|c chunks Hc Hcs IH]; [reflexivity|].
  simpl map. rewrite (utf8_ascii c Hc).
  destruct chunks as [|c' chunks]; [reflexivity|].
  simpl map in *. rewrite !concat_cons_cons. now rewrite IH.
Qed.

(** X5. For a stream of ASCII bytes the relay does what it would do on the
    whole body received as one piece: the lines processed are the lines of
    the bytes put end to end. *)
Theorem ascii_stream_relayed_as_one_piece (chunks : list string) :
  Forall (fun c => ascii_only c = true) chunks ->
  relay chunks
  = fold_left processLine
      (Text.split LF (String.concat EmptyString chunks)) start.
Proof.
  intros H. now rewrite relay_is_by_lines, text_of_ascii_chunks.
Qed.

End TextFacts.

(** ** What the stream becomes *)

Section StreamFacts.

Context {E : Engine}.

Ltac decide_bytes :=
  repeat match goal with
         | |- context [Nat.leb ?x ?y] => destruct (Nat.leb_spec x y); try lia
         | |- context [Nat.eqb ?x ?y] => destruct (Nat.eqb_spec x y); try lia
         end.

Lemma lead_of_lead_byte (a : ascii) :
  194 <= nat_of_ascii a <= 223 ->
  Text.lead a = (EmptyString, String a EmptyString, 1, 128, 191).
Proof. intros H. unfold Text.lead. decide_bytes. reflexivity. Qed.

Lemma lead_of_continuation (b : ascii) :
  128 <= nat_of_ascii b <= 191 ->
  Text.lead b = (Text.REPLACEMENT, EmptyString, 0, 128, 191).
Proof. intros H. unfold Text.lead. decide_bytes. reflexivity. Qed.

Lemma utf8_cut_after_lead (before : string) (a : ascii) :
  ascii_only before = true -> 194 <= nat_of_ascii a <= 223 ->
  Text.utf8 (before ++ String a EmptyString) = before ++ Text.REPLACEMENT.
Proof.
  intros Hb Ha. unfold Text.utf8. rewrite (decode_ascii _ _ Hb).
  cbn [Text.decode Nat.eqb negb andb]. now rewrite (lead_of_lead_byte a Ha).
Qed.

Lemma utf8_starting_with_continuation (b : ascii) (after : string) :
  ascii_only after = true -> 128 <= nat_of_ascii b <= 191 ->
  Text.utf8 (String b after) = Text.REPLACEMENT ++ after.
Proof.
  intros Hafter Hb. unfold Text.utf8.
  cbn [Text.decode Nat.eqb negb andb]. rewrite (lead_of_continuation b Hb).
  cbn [append]. rewrite <- (append_nil_r after) at 1.
  rewrite (decode_ascii _ _ Hafter). simpl. now rewrite append_nil_r.
Qed.

Lemma utf8_whole_character (before after : string) (a b : ascii) :
  ascii_only before = true -> ascii_only after = true -> two_byte a b ->
  Text.utf8 (before ++ String a (String b after))
  = before ++ String a (String b after).
Proof.
  intros Hbefore Hafter [Ha Hb]. unfold Text.utf8.
  rewrite (decode_ascii _ _ Hbefore).
  cbn [Text.decode Nat.eqb negb andb]. rewrite (lead_of_lead_byte a Ha).
  cbn [append Text.decode Nat.eqb negb andb].
  assert (H1 : Nat.leb 128 (nat_of_ascii b) = true) by (apply Nat.leb_le; lia).
  assert (H2 : Nat.leb (nat_of_ascii b) 191 = true) by (apply Nat.leb_le; lia).
  rewrite H1, H2. cbn [andb append].
  rewrite <- (append_nil_r after) at 1.
  rewrite (decode_ascii _ _ Hafter). simpl. now rewrite append_nil_r.
Qed.

(** X6. Each chunk is decoded on its own: a two-byte character whose bytes
    arrive in two chunks becomes two replacement characters in the text the
    relay works on, where the same bytes in one chunk are kept. *)
Theorem character_cut_by_chunks_is_replaced (before after : string) (a b : ascii) :
  ascii_only before = true -> ascii_only after = true -> two_byte a b ->
  text_of_chunks [before ++ String a EmptyString; String b after]
  = before ++ Text.REPLACEMENT ++ Text.REPLACEMENT ++ after
  /\ text_of_chunks [before ++ String a (String b after)]
     = before ++ String a (String b after).
Proof.
  intros Hbefore Hafter Hab. split.
  - destruct Hab as [Ha Hb]. unfold text_of_chunks. simpl map.
    rewrite concat_cons_cons. cbn [String.concat append].
    rewrite (utf8_cut_after_lead _ _ Hbefore Ha).
    rewrite (utf8_starting_with_continuation _ _ Hafter Hb).
    now rewrite append_assoc.
  - unfold text_of_chunks. simpl map. cbn [String.concat].
    now apply utf8_whole_character.
Qed.

Lemma concat_app (l l' : list string) :
  String.concat EmptyString (l ++ l')%list
  = String.concat EmptyString l ++ String.concat EmptyString l'.
Proof.
  induction l as [|x l IH]; [reflexivity|].
  destruct l as [|y l].
  - destruct l' as [|z l']; simpl; [now rewrite append_nil_r | reflexivity].
  - change ((x :: y :: l) ++ l')%list with (x :: y :: (l ++ l')%list).
    rewrite !concat_cons_cons. cbn [append].
    change (y :: (l ++ l')%list) with ((y :: l) ++ l')%list.
    now rewrite IH, append_assoc.
Qed.

Lemma concat_cons (x : string) (l : list string) :
  String.concat EmptyString (x :: l) = x ++ String.concat EmptyString l.
Proof. apply (concat_app [x] l). Qed.

Lemma unparsable_lines (lines : list string) (k : sink) :
  Forall (fun l => JSON_parse l = None) lines ->
  fold_left processLine lines k
  = {| written := (written k ++ nonblank lines)%list;
       fullResponse := fullResponse k ++ String.concat EmptyString (nonblank lines) |}.
Proof.
  intros H. revert k. induction H as [|l lines Hl Hlines IH]; intros k.
  - simpl. rewrite app_nil_r, append_nil_r. now destruct k.
  - simpl fold_left. rewrite IH, processLine_cases, Hl.
    unfold nonblank. simpl filter. destruct (blank l); simpl negb; cbv iota.
    + reflexivity.
    + unfold forwarded. cbn [written fullResponse].
      rewrite <- app_assoc, concat_cons, append_assoc. reflexivity.
Qed.

(** X7. A streamed reply none of whose lines is JSON (plain text) reaches
    the caller as its lines that are not blank, one write each, in order:
    the newlines and the blank lines are not forwarded, and the logged
    response is those lines put end to end. *)
Theorem plain_text_stream_loses_its_newlines (chunks : list string) :
  Forall (fun l => JSON_parse l = None) (Text.split LF (text_of_chunks chunks)) ->
  relay chunks
  = {| written := nonblank (Text.split LF (text_of_chunks chunks));
       fullResponse :=
         String.concat EmptyString
           (nonblank (Text.split LF (text_of_chunks chunks))) |}.
Proof.
  intros H. rewrite relay_is_by_lines, (unparsable_lines _ _ H). reflexivity.
Qed.







End StreamFacts.

(** ** The handlers, whatever the request *)

Section HandlerFacts.

Context {E : Engine}.

Lemma answer_fetched (w : world) (msg : string) (id : value) (r : upstream) :
  fetched (answer w msg id r) = [call_for w msg id].
Proof.
  unfold answer. destruct (negb (ok r)); [reflexivity|].
  destruct (is_json (content_type r)); [|destruct (stream r); reflexivity].
  destruct (data <- json r ;; extract data) as [[| | | | |]|]; reflexivity.
Qed.

Lemma answer_logged (w : world) (msg : string) (id : value) (r : upstream) :
  ok r = true ->
  (exists headers writes,
      response (answer w msg id r) = Some (SentText headers writes)
      /\ logged (answer w msg id r)
         = [log_for w msg id (String.concat EmptyString writes)])
  \/ (logged (answer w msg id r) = []
      /\ exists payload, response (answer w msg id r) = Some (SentJson 500 payload)).
Proof.
  intros Hok. unfold answer. rewrite Hok. simpl negb. cbv iota.
  destruct (is_json (content_type r)).
  - destruct (data <- json r ;; extract data) as [[| | |s| |]|e];
      try (right; split; [reflexivity | eexists; reflexivity]).
    left. exists text_plain, [s]. now split.
  - destruct (stream r) as [chunks|].
    + left. eexists. eexists. split; [reflexivity|].
      simpl. now rewrite (mirrored_relay chunks).
    + right. split; [reflexivity | eexists; reflexivity].
Qed.

Lemma answer_shape (w : world) (msg : string) (id : value) (r : upstream) :
  uncaught (answer w msg id r) = None
  /\ (exists s, response (answer w msg id r) = Some s)
  /\ List.length (logged (answer w msg id r)) <= 1
  /\ (logged (answer w msg id r) <> [] ->
      exists headers writes,
        response (answer w msg id r) = Some (SentText headers writes))
  /\ Forall (fun x => userMessage x = msg /\ sessionId x = id
                      /\ timestamp x = startTime w)
       (logged (answer w msg id r)).
Proof.
  unfold answer.
  destruct (negb (ok r));
    [|destruct (is_json (content_type r));
      [destruct (data <- json r ;; extract data) as [[| | |s| |]|e]
      |destruct (stream r) as [chunks|]]];
    cbn [uncaught response logged internal_error List.length];
    (split; [reflexivity|]);
    (split; [eexists; reflexivity|]);
    (split; [auto|]);
    (split; [intros Hl; try congruence; eexists; eexists; reflexivity|]);
    repeat constructor.
Qed.

(** X9. For every request, and whether the call to the webhook fails or
    is answered (with any status and content type, and a body that is null
    or is delivered to its end), the chat handler calls the webhook at most
    once and saveHistory at most once, and it calls saveHistory only for an
    exchange for which it called the webhook and sent a text body: never
    after a reply with status 400 or 500, and never when it throws. *)
Theorem chat_logs_only_what_it_answered (w : world) (req : request) :
  List.length (fetched (chat w req)) <= 1
  /\ List.length (logged (chat w req)) <= 1
  /\ (logged (chat w req) <> [] ->
      fetched (chat w req) <> []
      /\ uncaught (chat w req) = None
      /\ exists headers writes,
           response (chat w req) = Some (SentText headers writes)).
Proof.
  unfold chat.
  destruct (m <- Get (body req) "message" ;;
            s <- Get (body req) "sessionId" ;; Normal (m, s)) as [[m s]|e].
  - destruct (negb (truthy m)).
    + cbn. repeat split; auto; try congruence; try discriminate.
    + assert (Hcrash : forall e,
                List.length (fetched (crash e)) <= 1
                /\ List.length (logged (crash e)) <= 1
                /\ (logged (crash e) <> [] ->
                    fetched (crash e) <> []
                    /\ uncaught (crash e) = None
                    /\ exists headers writes,
                         response (crash e) = Some (SentText headers writes))).
      { intros e. cbn. repeat split; auto; try congruence; try discriminate. }
      destruct m as [[| | |msg| |]|]; try apply Hcrash.
      unfold attempt.
      destruct (fetch w (call_for w msg (uniqueId w req s))) as [r|e].
      * destruct (answer_shape w msg (uniqueId w req s) r)
          as [Hu [[sent Hs] [Hl [Ht _]]]].
        rewrite (answer_fetched w msg (uniqueId w req s) r).
        repeat split; auto; try discriminate; try congruence.
      * cbn. repeat split; auto; try congruence; try discriminate.
  - cbn. repeat split; auto; try congruence; try discriminate.
Qed.

(** X10. A message that is truthy and is no string (a number, true, an
    array, an object) passes the check on [message] and then has no
    [substring]: the handler throws before its [try], so the caller is sent
    nothing, the webhook is not called and nothing is logged. *)
Theorem non_string_message_throws (w : world) (req : request) (v : value) :
  Get (body req) "message" = Normal (Some v) ->
  ToBoolean v = true ->
  (forall s, v <> JStr s) ->
  chat w req = crash (Fault (NotAFunction "message.substring")).
Proof.
  intros Hm Hv Hs.
  assert (Hbody : body req <> JNull).
  { intros Hnull. rewrite Hnull in Hm. discriminate. }
  unfold chat. rewrite Hm. cbn [bind].
  rewrite (Get_field _ "sessionId" Hbody). cbn [bind].
  unfold truthy. rewrite Hv. cbn [negb].
  destruct v; try reflexivity. now destruct (Hs s).
Qed.

(** X11. The session identifier of an exchange: the one the client sent,
    unchanged, when it is truthy, else one made by createSessionId from the
    client address; and every record handed to saveHistory carries that
    same identifier, the message and the start time that went into the
    call to the webhook. *)
Theorem log_and_call_share_the_session (w : world) (req : request) (msg : string) :
  accepted req msg ->
  (forall s, field (body req) "sessionId" = Some s -> ToBoolean s = true ->
             id_of w req = s)
  /\ (truthy (field (body req) "sessionId") = false ->
      id_of w req = JStr (createSessionId (getClientIP req) (now1 w) (now2 w)))
  /\ fetched (chat w req)
     = [{| url := WEBHOOK_URL; method := "POST";
           call_headers := [("Content-Type", "application/json")];
           call_body := JSON_stringify
             (JObj [("message", JStr msg); ("sessionId", id_of w req);
                    ("timestamp", JStr (startTime w))]) |}]
  /\ Forall (fun x => userMessage x = msg /\ sessionId x = id_of w req
                      /\ timestamp x = startTime w)
       (logged (chat w req)).
Proof.
  intros Hacc. split; [|split; [|split]].
  - intros s Hs Ht. unfold id_of, uniqueId. now rewrite Hs, Ht.
  - unfold id_of, uniqueId.
    destruct (field (body req) "sessionId") as [s|]; simpl; [|reflexivity].
    now intros ->.
  - rewrite (chat_accepted _ _ _ Hacc). unfold attempt.
    destruct (fetch w _) as [r|e]; [apply answer_fetched | reflexivity].
  - rewrite (chat_accepted _ _ _ Hacc). unfold attempt.
    destruct (fetch w _) as [r|e]; [apply answer_shape | constructor].
Qed.

(** X12. A successful upstream reply that declares a JSON content type
    and from which the JSON branch gets no string (the body is not JSON, the
    payload is null, the value extracted is a number or an object) is
    answered with status 500 and the message of the error, and the exchange
    is not logged; when the body is not JSON, the message is that of the
    parse error. *)
Theorem failed_json_reply_is_500_unlogged (w : world) (req : request)
    (msg : string) (r : upstream) :
  accepted req msg ->
  fetch w (call_of w req msg) = Normal r ->
  ok r = true ->
  is_json (content_type r) = true ->
  (forall s, (data <- json r ;; extract data) <> Normal (JStr s)) ->
  exists e,
    chat w req = internal_error e [call_of w req msg]
    /\ logged (chat w req) = []
    /\ (forall e', json r = Throw e' -> e = e').
Proof.
  intros Hacc Hr Hok Hct Hno.
  rewrite (chat_answered _ _ _ _ Hacc Hr). unfold answer.
  rewrite Hok, Hct. cbn [negb].
  destruct (data <- json r ;; extract data) as [v|e] eqn:Hd.
  - destruct v;
      try (eexists; split; [reflexivity|]; split; [reflexivity|];
           intros e' He'; rewrite He' in Hd; discriminate).
    now destruct (Hno s).
  - exists e. split; [reflexivity|]. split; [reflexivity|].
    intros e' He'. rewrite He' in Hd. simpl in Hd. now inversion Hd.
Qed.

(** X19. A successful upstream reply that has no JSON content type and
    whose body is null (a reply with status 204 or 205) is not relayed as an
    empty text: the loop over the body throws before any write, the caller
    gets status 500 with the message of the TypeError, and the exchange is
    not logged. *)
Theorem bodyless_reply_is_500_unlogged (w : world) (req : request)
    (msg : string) (r : upstream) :
  accepted req msg ->
  fetch w (call_of w req msg) = Normal r ->
  ok r = true ->
  is_json (content_type r) = false ->
  stream r = None ->
  chat w req
  = {| response := Some (SentJson 500
          (JObj [("error", JStr "Internal Server Error");
                 ("details",
                  JStr (message_of (Fault (NotIterable "response.body"))))]));
       uncaught := None;
       fetched := [call_of w req msg];
       logged := [] |}.
Proof.
  intros Hacc Hr Hok Hct Hs.
  rewrite (chat_answered _ _ _ _ Hacc Hr). unfold answer.
  now rewrite Hok, Hct, Hs.
Qed.

(** X13. End to end: when a successful upstream reply is relayed as a text
    body, and the history file stands for the sequence [h] and accepts the
    write, the file is rewritten with [h] followed by one object, whose
    userMessage is the message of the request, whose botResponse is the
    concatenation of the strings the handler wrote to the response, whose
    sessionId and timestamp are those sent to the webhook, and whose savedAt
    is the time of the write. *)
Theorem relayed_exchange_is_appended (w : world) (req : request) (msg : string)
    (r : upstream) (headers : list (string * string)) (writes : list string)
    (d : disk) (h : list value) (savedAt : string) :
  accepted req msg ->
  fetch w (call_of w req msg) = Normal r ->
  ok r = true ->
  response (chat w req) = Some (SentText headers writes) ->
  holds d h ->
  accepts_write d = true ->
  persist d savedAt (chat w req)
  = [Saved (JSON_stringify_2
       (JArr (h ++ [JObj [("timestamp", JStr (startTime w));
                          ("sessionId", id_of w req);
                          ("userMessage", JStr msg);
                          ("botResponse", JStr (String.concat EmptyString writes));
                          ("savedAt", JStr savedAt)]])))].
Proof.
  intros Hacc Hr Hok Hresp Hh Hw. unfold persist.
  rewrite (chat_answered _ _ _ _ Hacc Hr) in *.
  destruct (answer_logged w msg (id_of w req) r Hok)
    as [[hs [ws [Hs Hl]]] | [_ [payload Hs]]].
  - rewrite Hs in Hresp. inversion Hresp; subst hs ws.
    rewrite Hl. simpl map.
    now rewrite (saveHistory_appends _ _ _ _ Hh), Hw.
  - rewrite Hs in Hresp. discriminate.
Qed.

(** X14. Two appends, one after the other, on an engine that reads back
    the file it wrote: the file ends up with the sequence it stood for
    followed by the two objects {timestamp, sessionId, userMessage,
    botResponse, savedAt} of the two exchanges, in the order of the
    appends. *)
Theorem successive_appends_accumulate (d : disk) (h : list value)
    (t1 t2 : string) (x1 x2 : entry) :
  holds d h ->
  accepts_write d = true ->
  reads_back (h ++ [JObj [("timestamp", JStr (timestamp x1));
                          ("sessionId", sessionId x1);
                          ("userMessage", JStr (userMessage x1));
                          ("botResponse", JStr (botResponse x1));
                          ("savedAt", JStr t1)]]) ->
  exists c1,
    saveHistory d t1 x1 = Saved c1
    /\ saveHistory {| stored := Some c1; accepts_write := true |} t2 x2
       = Saved (JSON_stringify_2
           (JArr (h ++ [JObj [("timestamp", JStr (timestamp x1));
                              ("sessionId", sessionId x1);
                              ("userMessage", JStr (userMessage x1));
                              ("botResponse", JStr (botResponse x1));
                              ("savedAt", JStr t1)];
                        JObj [("timestamp", JStr (timestamp x2));
                              ("sessionId", sessionId x2);
                              ("userMessage", JStr (userMessage x2));
                              ("botResponse", JStr (botResponse x2));
                              ("savedAt", JStr t2)]]))).
Proof.
  intros Hh Hw [Hne Hback].
  exists (file_with (h ++ [record_of x1 t1])). split.
  - now rewrite (saveHistory_appends _ _ _ _ Hh), Hw.
  - rewrite (saveHistory_appends _ (h ++ [record_of x1 t1]) t2 x2).
    + cbn [accepts_write]. unfold file_with. now rewrite <- app_assoc.
    + now apply holds_array with (file_with (h ++ [record_of x1 t1])).
Qed.

(** X15. The client address is never the empty string; and when the
    X-Forwarded-For header is present and its first entry is not blank,
    that entry, trimmed, is the address, whatever the other headers and the
    socket say. *)
Theorem client_address_never_empty (req : request) :
  getClientIP req <> EmptyString
  /\ (forall h,
        x_forwarded_for req = Some h ->
        Text.trim (hd EmptyString (Text.split "," h)) <> EmptyString ->
        getClientIP req = Text.trim (hd EmptyString (Text.split "," h))).
Proof.
  unfold getClientIP. split.
  - destruct (or_string _ _) as [s|]; [|discriminate].
    destruct (Text.nonempty s) eqn:Hs; [now apply nonempty_true | discriminate].
  - intros h Hh Hne. rewrite Hh. apply nonempty_true in Hne.
    unfold or_string at 3. rewrite Hne.
    unfold or_string. now rewrite !Hne.
Qed.


End HandlerFacts.

(** ** The relay on the reference engine *)

Import Reference.
Import Examples.

Lemma hello_accepted : accepted hello "hello".
Proof. split; [reflexivity | discriminate]. Defined.

Lemma relay_two_chunks :
  relay [chunk1; chunk2]
  = {| written := ["foo"; "bar"]; fullResponse := "foobar" |}.
Proof. vm_compute. reflexivity. Qed.

(** C4. A stream with a content type other than JSON that arrives as the
    two chunks [chunk1] and [chunk2], the second line being cut after its
    first four characters, reaches the caller as foo then bar: the caller
    receives exactly foobar, and foobar is what is logged. *)
Theorem two_chunks_give_foobar (w : world) (req : request) (msg : string)
    (r : upstream) :
  accepted req msg ->
  fetch w (call_of w req msg) = Normal r ->
  ok r = true ->
  is_json (content_type r) = false ->
  stream r = Some [chunk1; chunk2] ->
  received (chat w req) = Some "foobar"
  /\ response (chat w req)
     = Some (SentText (text_plain ++ [("Transfer-Encoding", "chunked")])%list
               ["foo"; "bar"])
  /\ logged (chat w req) = [log_for w msg (id_of w req) "foobar"].
Proof.
  intros Hacc Hr Hok Hct Hs.
  unfold received. rewrite (chat_answered _ _ _ _ Hacc Hr). unfold answer.
  rewrite Hok, Hct, Hs, relay_two_chunks. repeat split.
Qed.

Lemma two_chunks_give_foobar_witness :
  received (chat (webhook (Normal (reply 200 "text/plain" [chunk1; chunk2]))) hello)
  = Some "foobar".
Proof.
  exact (proj1 (two_chunks_give_foobar
                  (webhook (Normal (reply 200 "text/plain" [chunk1; chunk2])))
                  hello "hello" (reply 200 "text/plain" [chunk1; chunk2])
                  hello_accepted eq_refl eq_refl eq_refl eq_refl)).
Defined.

(** C9. saveHistory is not total over the contents of the history file: on
    a file that holds the JSON text of an object, or of a number, the parse
    succeeds, [history.push] is no function, the TypeError is thrown inside
    the readFile callback and nothing is written. *)
Theorem non_array_history_crashes (savedAt : string) (x : entry) (writable : bool) :
  saveHistory {| stored := Some "{}"; accepts_write := writable |} savedAt x
  = Crashed (Fault (NotAFunction "history.push"))
  /\ saveHistory {| stored := Some "5"; accepts_write := writable |} savedAt x
     = Crashed (Fault (NotAFunction "history.push")).
Proof. split; reflexivity. Qed.

(** C1, as stated, fails on the line {"type":"begin"}: the rule of the
    whole-JSON branch ends in the serialized payload, and the streaming
    branch writes nothing. It fails on {"response":"r","text":"t"} too:
    the whole-JSON rule takes response first, the streaming branch text. *)
Lemma stream_line_not_whole_body_rule :
  blank begin_line = false
  /\ JSON_parse begin_line = Some (JObj [("type", JStr "begin")])
  /\ claimed_line_rule (JObj [("type", JStr "begin")]) = Normal (JStr begin_line)
  /\ processLine start begin_line = start
  /\ processLine start begin_line <> forwarded start begin_line
  /\ JSON_parse response_text_line
     = Some (JObj [("response", JStr "r"); ("text", JStr "t")])
  /\ claimed_line_rule (JObj [("response", JStr "r"); ("text", JStr "t")])
     = Normal (JStr "r")
  /\ processLine start response_text_line = forwarded start "t".
Proof.
  assert (H : processLine start begin_line = start) by (vm_compute; reflexivity).
  repeat split; try (vm_compute; reflexivity).
  rewrite H. discriminate.
Qed.

Lemma stream_line_extraction_witness :
  processLine start item_line = forwarded start "foo".
Proof.
  exact (stream_line_extraction start item_line
           (JObj [("type", JStr "item"); ("content", JStr "foo")])
           eq_refl eq_refl).
Defined.

(** C2, as stated, fails on the line {}: it parses, nothing is extracted
    from it, and it is not forwarded. It fails on a line of spaces too,
    which does not parse and is skipped. *)
Lemma extractionless_line_not_forwarded :
  blank "{}" = false
  /\ JSON_parse "{}" = Some (JObj [])
  /\ stream_choice (JObj []) = None
  /\ processLine start "{}" = start
  /\ processLine start "{}" <> forwarded start "{}"
  /\ JSON_parse "  " = None
  /\ processLine start "  " <> forwarded start "  ".
Proof.
  assert (H : processLine start "{}" = start) by (vm_compute; reflexivity).
  assert (H' : processLine start "  " = start) by (vm_compute; reflexivity).
  repeat split; try (vm_compute; reflexivity).
  - rewrite H. discriminate.
  - rewrite H'. discriminate.
Qed.

Lemma stream_line_raw_or_dropped_witness :
  processLine start "plain text" = forwarded start "plain text"
  /\ processLine start "{}" = start.
Proof.
  split.
  - exact (proj1 (stream_line_raw_or_dropped start "plain text") eq_refl).
  - exact (proj2 (stream_line_raw_or_dropped start "{}") (JObj []) eq_refl
             ltac:(discriminate) eq_refl).
Defined.


(** An element of an array reply whose only truthy field is output is sent
    serialized: the callback of [data.map] does not look at output. *)
Lemma array_element_output_is_serialized :
  json (reply 200 "application/json" [output_array])
  = Normal (JArr [JObj [("output", JStr "x")]])
  /\ received (chat (webhook (Normal (reply 200 "application/json" [output_array]))) hello)
     = Some output_line.
Proof. split; vm_compute; reflexivity. Qed.

(** A null payload makes the first property read throw: status 500. *)
Lemma null_payload_answers_500 :
  exists payload,
    response (chat (webhook (Normal (reply 200 "application/json" ["null"]))) hello)
    = Some (SentJson 500 payload).
Proof. eexists. vm_compute. reflexivity. Qed.



Lemma transport_failure_witness :
  chat (webhook (Throw (Rejected "fetch failed"))) hello =
  {| response := Some (SentJson 500
        (JObj [("error", JStr "Internal Server Error");
               ("details", JStr "fetch failed")]));
     uncaught := None;
     fetched := [call_of (webhook (Throw (Rejected "fetch failed"))) hello "hello"];
     logged := [] |}.
Proof.
  exact (transport_failure_answers_500_unlogged
           (webhook (Throw (Rejected "fetch failed"))) hello "hello"
           (Rejected "fetch failed") hello_accepted eq_refl).
Defined.

Lemma unreadable_history_restarts_witness :
  saveHistory (disk_with "not json {") "2024-05-01T10:00:01.000Z" exchange
  = Saved (JSON_stringify_2
      (JArr [JObj [("timestamp", JStr "2024-05-01T10:00:00.000Z");
                   ("sessionId", JStr "s1");
                   ("userMessage", JStr "hello");
                   ("botResponse", JStr "hi");
                   ("savedAt", JStr "2024-05-01T10:00:01.000Z")]]))
  /\ JSON_parse (JSON_stringify_2
      (JArr [JObj [("timestamp", JStr "2024-05-01T10:00:00.000Z");
                   ("sessionId", JStr "s1");
                   ("userMessage", JStr "hello");
                   ("botResponse", JStr "hi");
                   ("savedAt", JStr "2024-05-01T10:00:01.000Z")]]))
     = Some (JArr [JObj [("timestamp", JStr "2024-05-01T10:00:00.000Z");
                         ("sessionId", JStr "s1");
                         ("userMessage", JStr "hello");
                         ("botResponse", JStr "hi");
                         ("savedAt", JStr "2024-05-01T10:00:01.000Z")]]).
Proof.
  split.
  - exact (unreadable_history_restarts (disk_with "not json {")
             "2024-05-01T10:00:01.000Z" exchange
             (or_intror (ex_intro _ "not json {" (conj eq_refl eq_refl)))).
  - vm_compute. reflexivity.
Defined.

(** C8, as stated, fails on a request with no body: there is no message
    to read, and the handler throws before its check instead of answering
    with status 400. *)
Lemma bodyless_request_not_answered_400 :
  Get (body bodyless) "message" = Throw (Fault (ReadOfNull "message"))
  /\ chat (webhook (Throw (Rejected "unreachable"))) bodyless
     = {| response := None;
          uncaught := Some (Fault (ReadOfNull "message"));
          fetched := []; logged := [] |}
  /\ response (chat (webhook (Throw (Rejected "unreachable"))) bodyless)
     <> Some (SentJson 400 (JObj [("error", JStr "Message is required")])).
Proof.
  split; [reflexivity|]. split; [reflexivity|]. discriminate.
Qed.

Lemma missing_message_rejected_witness :
  chat (webhook (Throw (Rejected "unreachable"))) silent
  = {| response := Some (SentJson 400 (JObj [("error", JStr "Message is required")]));
       uncaught := None; fetched := []; logged := [] |}
  /\ fetched (chat (webhook (Throw (Rejected "unreachable"))) bodyless) = []
  /\ logged (chat (webhook (Throw (Rejected "unreachable"))) bodyless) = [].
Proof.
  split.
  - apply (missing_message_rejected (webhook (Throw (Rejected "unreachable")))
             silent (or_intror (ex_intro _ None (conj eq_refl eq_refl)))).
    discriminate.
  - destruct (missing_message_rejected (webhook (Throw (Rejected "unreachable")))
                bodyless (or_introl eq_refl)) as [Hcall [Hlog _]].
    now split.
Defined.

Lemma logged_reply_witness :
  response (chat (webhook (Normal (reply 200 "text/plain" [chunk1; chunk2]))) hello)
  = Some (SentText [("Content-Type", "text/plain; charset=utf-8");
                    ("Transfer-Encoding", "chunked")]
            ["foo"; "bar"])
  /\ logged (chat (webhook (Normal (reply 200 "text/plain" [chunk1; chunk2]))) hello)
     = [{| userMessage := "hello"; botResponse := "foobar";
           timestamp := "2024-05-01T10:00:00.000Z"; sessionId := JStr "s1" |}].
Proof.
  destruct (logged_reply_is_what_was_written
              (webhook (Normal (reply 200 "text/plain" [chunk1; chunk2])))
              hello "hello" (reply 200 "text/plain" [chunk1; chunk2])
              hello_accepted eq_refl eq_refl)
    as [[headers [writes [Hsent [Hlog [Hjson | [chunks [Hchunks Hwrites]]]]]]]
       | [_ [_ [Hjson | Hnull]]]];
    try discriminate.
  inversion Hchunks; subst chunks. rewrite relay_two_chunks in Hwrites.
  cbn [written] in Hwrites. subst writes. split; [|exact Hlog].
  rewrite Hsent. f_equal. f_equal.
  assert (H : response
                (chat (webhook (Normal (reply 200 "text/plain" [chunk1; chunk2])))
                   hello)
              = Some (SentText [("Content-Type", "text/plain; charset=utf-8");
                                ("Transfer-Encoding", "chunked")]
                        ["foo"; "bar"])) by (vm_compute; reflexivity).
  rewrite Hsent in H. now inversion H.
Defined.

Lemma chunking_is_immaterial_witness :
  relay [chunk1; chunk2] = relay [chunk1 ++ chunk2].
Proof.
  apply (chunking_is_immaterial [chunk1; chunk2] [chunk1 ++ chunk2]).
  vm_compute. reflexivity.
Defined.

Lemma accepted_request_calls_once_witness :
  fetched (chat (webhook (Normal (reply 200 "application/json" [response_hi]))) hello)
  = [call_of (webhook (Normal (reply 200 "application/json" [response_hi])))
       hello "hello"].
Proof.
  exact (accepted_request_calls_once
           (webhook (Normal (reply 200 "application/json" [response_hi])))
           hello "hello" hello_accepted).
Defined.

(** ** Session identifiers on the reference engine *)

Lemma hex_length (bytes : list N) :
  String.length (MD5.hex bytes) = 2 * List.length bytes.
Proof. induction bytes as [|b bytes IH]; simpl; [reflexivity | rewrite IH; lia]. Qed.

Lemma hex_app (l l' : list N) : MD5.hex (l ++ l')%list = MD5.hex l ++ MD5.hex l'.
Proof. induction l as [|b l IH]; simpl; [reflexivity | now rewrite IH]. Qed.

Lemma le_bytes_length (count : nat) (x : N) :
  List.length (MD5.le_bytes count x) = count.
Proof. unfold MD5.le_bytes. now rewrite length_map, length_seq. Qed.

Lemma le_bytes_small (count : nat) (x : N) :
  Forall (fun b => (b < 256)%N) (MD5.le_bytes count x).
Proof.
  unfold MD5.le_bytes. apply Forall_forall. intros b Hb.
  apply in_map_iff in Hb as [i [<- _]].
  change 255%N with (N.ones 8). rewrite N.land_ones.
  apply N.mod_lt. discriminate.
Qed.

Lemma hex_digit_is_hex (n : N) : (n < 16)%N -> is_hex (MD5.hex_digit n) = true.
Proof.
  intros H.
  assert (Hn : In n (map N.of_nat (seq 0 16))).
  { apply in_map_iff. exists (N.to_nat n). split; [apply N2Nat.id|].
    apply in_seq. lia. }
  simpl in Hn.
  repeat (destruct Hn as [<- | Hn]; [reflexivity|]). contradiction.
Qed.

Lemma hex_is_hex (bytes : list N) :
  Forall (fun b => (b < 256)%N) bytes -> all_hex (MD5.hex bytes) = true.
Proof.
  induction 1 as [|b bytes Hb _ IH]; [reflexivity|].
  cbn [MD5.hex all_hex]. rewrite IH, !hex_digit_is_hex; [reflexivity| |].
  - apply N.mod_lt. discriminate.
  - apply N.Div0.div_lt_upper_bound. exact Hb.
Qed.

Lemma substring_whole_prefix (a b : string) :
  String.substring 0 (String.length a) (a ++ b) = a.
Proof.
  induction a as [|c a IH]; simpl.
  - now destruct b.
  - now rewrite IH.
Qed.

(** The first eight characters of a digest: the first four bytes, in
    hexadecimal. *)
Lemma digest_head (s : string) :
  exists word, String.substring 0 8 (MD5.md5_hex s) = MD5.hex (MD5.le_bytes 4 word).
Proof.
  unfold MD5.md5_hex.
  destruct (MD5.blocks _ _ _) as [[[a b] c] d]. exists a.
  rewrite hex_app.
  change 8 with (String.length (MD5.hex (MD5.le_bytes 4 a))) at 1.
  apply substring_whole_prefix.
Qed.

Lemma append_same_length (a a' b b' : string) :
  String.length a = String.length a' -> a ++ b = a' ++ b' -> a = a' /\ b = b'.
Proof.
  revert a'. induction a as [|c a IH]; intros [|c' a'] Hlen H;
    try discriminate; simpl in *.
  - now split.
  - inversion H; subst. destruct (IH a') as [-> ->]; auto.
Qed.

Lemma decimal_inj (n n' : N) : Text.decimal n = Text.decimal n' -> n = n'.
Proof.
  unfold Text.decimal. intros H.
  assert (Hnz : forall m, N.to_uint m <> Decimal.Nil).
  { intros [|p]; [discriminate | apply DecimalPos.Unsigned.to_uint_nonnil]. }
  apply (f_equal NilZero.uint_of_string) in H.
  rewrite !NilZero.usu in H by apply Hnz.
  inversion H. now apply DecimalN.Unsigned.to_uint_inj.
Qed.

(** X17. A session identifier made by createSessionId is sg_, eight
    lower-case hexadecimal digits (the head of the MD5 of the address and
    the first reading of the clock), an underscore, and the second reading
    of the clock in decimal. *)
Theorem session_id_shape (address : string) (t1 t2 : N) :
  exists digest,
    createSessionId address t1 t2 = "sg_" ++ digest ++ "_" ++ Text.decimal t2
    /\ String.length digest = 8
    /\ all_hex digest = true
    /\ digest = String.substring 0 8 (md5_hex (address ++ Text.decimal t1)).
Proof.
  exists (String.substring 0 8 (md5_hex (address ++ Text.decimal t1))).
  split; [reflexivity|].
  destruct (digest_head (address ++ Text.decimal t1)) as [word Hw].
  cbn [md5_hex engine]. rewrite Hw.
  split; [|split; [|reflexivity]].
  - now rewrite hex_length, le_bytes_length.
  - apply hex_is_hex, le_bytes_small.
Qed.

Lemma session_ids_differ (a a' : string) (t1 t1' t2 t2' : N) :
  t2 <> t2' -> createSessionId a t1 t2 <> createSessionId a' t1' t2'.
Proof.
  intros Ht H.
  destruct (digest_head (a ++ Text.decimal t1)) as [word Hw].
  destruct (digest_head (a' ++ Text.decimal t1')) as [word' Hw'].
  unfold createSessionId in H. cbn [md5_hex engine] in H.
  rewrite Hw, Hw' in H.
  apply append_same_length in H as [_ H]; [|reflexivity].
  apply append_same_length in H as [_ H];
    [|now rewrite !hex_length, !le_bytes_length].
  apply append_same_length in H as [_ H]; [|reflexivity].
  now apply decimal_inj in H.
Qed.

(** X18. GET /api/session answers with a fresh identifier: two calls whose
    readings of the clock differ get different session identifiers,
    whatever the addresses of the callers; and the handler calls neither
    the webhook nor saveHistory. *)
Theorem sessions_at_different_times_differ (w w' : world) (req req' : request) :
  now2 w <> now2 w' ->
  exists id id',
    session_id_in (session w req) = Some (JStr id)
    /\ session_id_in (session w' req') = Some (JStr id')
    /\ id <> id'
    /\ fetched (session w req) = [] /\ logged (session w req) = [].
Proof.
  intros Ht. eexists. eexists.
  split; [reflexivity|]. split; [reflexivity|].
  split; [now apply session_ids_differ | now split].
Qed.

(** ** The further properties on concrete requests *)

Lemma ascii_stream_witness :
  relay [chunk1; chunk2]
  = fold_left processLine
      (Text.split LF (String.concat EmptyString [chunk1; chunk2])) start.
Proof.
  apply (ascii_stream_relayed_as_one_piece [chunk1; chunk2]).
  repeat constructor.
Defined.

Lemma character_cut_witness :
  text_of_chunks ["caf" ++ String E_ACUTE_1 EmptyString; String E_ACUTE_2 "!"]
  = "caf" ++ Text.REPLACEMENT ++ Text.REPLACEMENT ++ "!"
  /\ text_of_chunks ["caf" ++ String E_ACUTE_1 (String E_ACUTE_2 "!")]
     = "caf" ++ String E_ACUTE_1 (String E_ACUTE_2 "!").
Proof.
  apply (character_cut_by_chunks_is_replaced "caf" "!" E_ACUTE_1 E_ACUTE_2).
  - reflexivity.
  - reflexivity.
  - unfold two_byte. vm_compute. lia.
Defined.

Lemma plain_text_stream_witness :
  relay ["hello" ++ nl ++ nl ++ "wor"; "ld" ++ nl]
  = {| written := ["hello"; "world"]; fullResponse := "helloworld" |}.
Proof.
  etransitivity.
  - apply (plain_text_stream_loses_its_newlines
             ["hello" ++ nl ++ nl ++ "wor"; "ld" ++ nl]).
    replace (Text.split LF
               (text_of_chunks ["hello" ++ nl ++ nl ++ "wor"; "ld" ++ nl]))
      with ["hello"; EmptyString; "world"; EmptyString]
      by (vm_compute; reflexivity).
    repeat constructor.
  - vm_compute. reflexivity.
Defined.


Lemma non_string_message_witness :
  chat (webhook (Throw (Rejected "unreachable"))) numeric
  = crash (Fault (NotAFunction "message.substring")).
Proof.
  apply (non_string_message_throws (webhook (Throw (Rejected "unreachable")))
           numeric (JNum PrimFloat.one)).
  - reflexivity.
  - vm_compute. reflexivity.
  - discriminate.
Defined.

Lemma supplied_session_witness :
  id_of (webhook (Normal (reply 200 "text/plain" [chunk1; chunk2]))) hello
  = JStr "s1".
Proof.
  apply (proj1 (log_and_call_share_the_session
                  (webhook (Normal (reply 200 "text/plain" [chunk1; chunk2])))
                  hello "hello" hello_accepted)).
  - reflexivity.
  - reflexivity.
Defined.

Lemma failed_json_reply_witness :
  exists e,
    chat (webhook (Normal (reply 200 "application/json" ["not json"]))) hello
    = internal_error e
        [call_of (webhook (Normal (reply 200 "application/json" ["not json"])))
           hello "hello"]
    /\ logged (chat (webhook (Normal (reply 200 "application/json" ["not json"]))) hello)
       = []
    /\ (forall e',
          json (reply 200 "application/json" ["not json"]) = Throw e' -> e = e').
Proof.
  apply (failed_json_reply_is_500_unlogged
           (webhook (Normal (reply 200 "application/json" ["not json"])))
           hello "hello" (reply 200 "application/json" ["not json"])).
  - exact hello_accepted.
  - reflexivity.
  - reflexivity.
  - vm_compute. reflexivity.
  - intros s. vm_compute. discriminate.
Defined.

Lemma bodyless_reply_witness :
  chat (webhook (Normal no_content)) hello
  = {| response := Some (SentJson 500
          (JObj [("error", JStr "Internal Server Error");
                 ("details", JStr "response.body is not async iterable")]));
       uncaught := None;
       fetched := [call_of (webhook (Normal no_content)) hello "hello"];
       logged := [] |}.
Proof.
  exact (bodyless_reply_is_500_unlogged (webhook (Normal no_content))
           hello "hello" no_content hello_accepted eq_refl eq_refl eq_refl eq_refl).
Defined.

Lemma relayed_exchange_witness :
  persist (disk_with "[]") "2024-05-01T10:00:01.000Z"
    (chat (webhook (Normal (reply 200 "text/plain" [chunk1; chunk2]))) hello)
  = [Saved (JSON_stringify_2
       (JArr [JObj [("timestamp", JStr "2024-05-01T10:00:00.000Z");
                    ("sessionId", JStr "s1");
                    ("userMessage", JStr "hello");
                    ("botResponse", JStr "foobar");
                    ("savedAt", JStr "2024-05-01T10:00:01.000Z")]]))].
Proof.
  apply (relayed_exchange_is_appended
           (webhook (Normal (reply 200 "text/plain" [chunk1; chunk2])))
           hello "hello" (reply 200 "text/plain" [chunk1; chunk2])
           (text_plain ++ [("Transfer-Encoding", "chunked")])%list ["foo"; "bar"]
           (disk_with "[]") [] "2024-05-01T10:00:01.000Z").
  - exact hello_accepted.
  - reflexivity.
  - reflexivity.
  - vm_compute. reflexivity.
  - apply holds_array with "[]"; [reflexivity | discriminate | vm_compute; reflexivity].
  - reflexivity.
Defined.

Lemma successive_appends_witness :
  exists c1,
    saveHistory (disk_with "[]") "2024-05-01T10:00:01.000Z" exchange = Saved c1
    /\ saveHistory {| stored := Some c1; accepts_write := true |}
         "2024-05-01T10:01:01.000Z" second_exchange
       = Saved (JSON_stringify_2
           (JArr [JObj [("timestamp", JStr "2024-05-01T10:00:00.000Z");
                        ("sessionId", JStr "s1");
                        ("userMessage", JStr "hello");
                        ("botResponse", JStr "hi");
                        ("savedAt", JStr "2024-05-01T10:00:01.000Z")];
                  JObj [("timestamp", JStr "2024-05-01T10:01:00.000Z");
                        ("sessionId", JStr "s1");
                        ("userMessage", JStr "again");
                        ("botResponse", JStr "yes");
                        ("savedAt", JStr "2024-05-01T10:01:01.000Z")]])).
Proof.
  apply (successive_appends_accumulate (disk_with "[]") []
           "2024-05-01T10:00:01.000Z" "2024-05-01T10:01:01.000Z"
           exchange second_exchange).
  - apply holds_array with "[]"; [reflexivity | discriminate | vm_compute; reflexivity].
  - reflexivity.
  - split; [vm_compute; discriminate | vm_compute; reflexivity].
Defined.


Lemma sessions_differ_witness :
  exists id id',
    session_id_in (session (webhook (Throw (Rejected "unused"))) hello)
    = Some (JStr id)
    /\ session_id_in (session (later (webhook (Throw (Rejected "unused")))) hello)
       = Some (JStr id')
    /\ id <> id'
    /\ fetched (session (webhook (Throw (Rejected "unused"))) hello) = []
    /\ logged (session (webhook (Throw (Rejected "unused"))) hello) = [].
Proof.
  apply (sessions_at_different_times_differ
           (webhook (Throw (Rejected "unused")))
           (later (webhook (Throw (Rejected "unused")))) hello hello).
  vm_compute. discriminate.
Defined.
